(** * Converty: the batch image conversion pipeline

    A shallow embedding of the converty CLI (utils/utils.ts, index.ts and the
    older compiled .mjs build of index) together with the properties its
    specification states about the classifier, the output-name resolver, the
    orchestrator and the single-file converter.

    JavaScript strings are modelled as [string]; [undefined] as [None]. *)

From Stdlib Require Import String Ascii List ZArith Bool Lia DecimalString.
Import ListNotations.
Local Open Scope string_scope.
Local Open Scope Z_scope.

(** ** JavaScript string and array primitives used by the sources *)

Module JS.

(** [s.split(sep)] for a one-character separator (the sources only split on
    [.] and on [x]).  The result always has at least one segment. *)
Fixpoint split (sep : ascii) (s : string) : list string :=
  match s with
  | EmptyString => [EmptyString]
  | String c s' =>
      if Ascii.eqb c sep then EmptyString :: split sep s'
      else match split sep s' with
           | [] => [String c EmptyString]
           | seg :: segs => String c seg :: segs
           end
  end.

(** [s.includes(t)] on strings: [t] occurs in [s] as a contiguous substring. *)
Fixpoint includes (s t : string) : bool :=
  String.prefix t s
  || match s with
     | EmptyString => false
     | String _ s' => includes s' t
     end.

(** [arr.includes(v)] on an array of strings; [v] may be [undefined]. *)
Definition Array_includes (arr : list string) (v : option string) : bool :=
  match v with
  | None => false
  | Some x => existsb (String.eqb x) arr
  end.

(** [arr[i]]: [undefined] out of range. *)
Definition index {A} (arr : list A) (i : nat) : option A := nth_error arr i.

(** String concatenation with a possibly undefined left operand:
    [undefined + "x"] is ["undefinedx"]. *)
Definition concat_undef (v : option string) (t : string) : string :=
  match v with
  | None => "undefined" ++ t
  | Some s => s ++ t
  end.

(** Truthiness of a possibly undefined string: the empty string and
    [undefined] are falsy, every other string is truthy. *)
Definition truthy (v : option string) : bool :=
  match v with
  | None => false
  | Some EmptyString => false
  | Some (String _ _) => true
  end.

(** [s.slice(start, end)] with JavaScript's index normalisation. *)
Definition slice (s : string) (start end_ : Z) : string :=
  let len := Z.of_nat (String.length s) in
  let from := if start <? 0 then Z.max (len + start) 0 else Z.min start len in
  let to := if end_ <? 0 then Z.max (len + end_) 0 else Z.min end_ len in
  String.substring (Z.to_nat from) (Z.to_nat (to - from)) s.

(** [s.replace(pattern, by)] for a one-character pattern: the first
    occurrence is replaced, the rest of the string is kept. *)
Fixpoint replace (pattern : ascii) (by_ : string) (s : string) : string :=
  match s with
  | EmptyString => EmptyString
  | String c s' =>
      if Ascii.eqb c pattern then by_ ++ s'
      else String c (replace pattern by_ s')
  end.

(** The decimal text of an array length, as a template literal prints it. *)
Definition length_text (n : nat) : string :=
  NilEmpty.string_of_uint (Nat.to_uint n).

End JS.

(** ** node:path, POSIX flavour: [basename] and [extname]

    Both scan the path from its last character to its first, as the Node
    library does, with [-1] as the "not seen yet" marker. *)

Module Path.

Definition is_char (code : option ascii) (c : ascii) : bool :=
  match code with
  | Some a => Ascii.eqb a c
  | None => false
  end.

Record BaseState := mkBase {
  b_start : Z;
  b_end : Z;
  b_matchedSlash : bool
}.

(** The loop [for (i = n - 1; i >= 0; --i)] of [basename]. *)
Fixpoint basename_loop (path : string) (n : nat) (st : BaseState) : BaseState :=
  match n with
  | O => st
  | S i =>
      if is_char (String.get i path) "/" then
        if negb (b_matchedSlash st) then
          mkBase (Z.of_nat i + 1) (b_end st) (b_matchedSlash st)
        else basename_loop path i st
      else if b_end st =? -1 then
        basename_loop path i (mkBase (b_start st) (Z.of_nat i + 1) false)
      else basename_loop path i st
  end.

Definition basename (path : string) : string :=
  let st := basename_loop path (String.length path) (mkBase 0 (-1) true) in
  if b_end st =? -1 then "" else JS.slice path (b_start st) (b_end st).

Record ExtState := mkExt {
  startDot : Z;
  startPart : Z;
  end_ : Z;
  matchedSlash : bool;
  preDotState : Z
}.

(** One non-separator character at index [i] of the [extname] loop. *)
Definition extname_char (code : option ascii) (i : Z) (st : ExtState) : ExtState :=
  let st1 :=
    if end_ st =? -1
    then mkExt (startDot st) (startPart st) (i + 1) false (preDotState st)
    else st in
  if is_char code "." then
    if startDot st1 =? -1
    then mkExt i (startPart st1) (end_ st1) (matchedSlash st1) (preDotState st1)
    else if negb (preDotState st1 =? 1)
    then mkExt (startDot st1) (startPart st1) (end_ st1) (matchedSlash st1) 1
    else st1
  else if negb (startDot st1 =? -1)
  then mkExt (startDot st1) (startPart st1) (end_ st1) (matchedSlash st1) (-1)
  else st1.

(** The loop [for (i = n - 1; i >= 0; --i)] of [extname]. *)
Fixpoint extname_loop (path : string) (n : nat) (st : ExtState) : ExtState :=
  match n with
  | O => st
  | S i =>
      let code := String.get i path in
      if is_char code "/" then
        if negb (matchedSlash st) then
          mkExt (startDot st) (Z.of_nat i + 1) (end_ st) (matchedSlash st)
                (preDotState st)
        else extname_loop path i st
      else extname_loop path i (extname_char code (Z.of_nat i) st)
  end.

Definition extname (path : string) : string :=
  let st := extname_loop path (String.length path) (mkExt (-1) 0 (-1) true 0) in
  if (startDot st =? -1)
     || (end_ st =? -1)
     || (preDotState st =? 0)
     || ((preDotState st =? 1)
         && (startDot st =? end_ st - 1)
         && (startDot st =? startPart st + 1))
  then ""
  else JS.slice path (startDot st) (end_ st).

End Path.

(** ** Values, effects and the external collaborators *)

(** An error value, identified by its message. *)
Definition Error := string.

(** A JavaScript number as far as the sources look at it: an integer, [NaN],
    or some other non-integral value. *)
Inductive number :=
| Num (z : Z)
| NaN
| NonInteger.

(** A synchronous call either returns or throws. *)
Inductive Completion (A : Type) :=
| Normal (a : A)
| Throw (e : Error).
Arguments Normal {A} a.
Arguments Throw {A} e.

Definition bindC {A B} (c : Completion A) (k : A -> Completion B) : Completion B :=
  match c with
  | Normal a => k a
  | Throw e => Throw e
  end.

(** [FormatOpts["format"]] *)
Inductive Format := webp | jpeg | png | jpg | avif.

Definition format_str (f : Format) : string :=
  match f with
  | webp => "webp"
  | jpeg => "jpeg"
  | png => "png"
  | jpg => "jpg"
  | avif => "avif"
  end.

Record FileInfo := mkFileInfo {
  path : string;
  name : string;
  ext : string
}.

Record FormatOpts := mkFormatOpts {
  format : Format;
  resize : bool;
  quality : number;
  dimensions : string
}.

Record Dirent := mkDirent {
  d_name : string;
  d_parentPath : string;
  d_isFile : bool
}.

Record ResizeOptions := mkResizeOptions {
  width : number;
  height : number;
  fit : string
}.

Record BaseAnswers := mkBaseAnswers {
  b_inputPath : string;
  b_outputPath : string;
  b_format : Format;
  b_resize : bool
}.

Record ExtraAnswers := mkExtraAnswers {
  e_quality : string;
  e_dimensions : string
}.

Record Answers := mkAnswers {
  inputPath : string;
  outputPath : string;
  a_format : Format;
  a_resize : bool;
  a_quality : string;
  a_dimensions : string
}.

(** What a run does to the outside: the observable calls, in order. *)
Inductive Event :=
| Readdir (directory : string)
| Access (directory : string)
| Mkdir (directory : string)
| Convert (inputFile outputFile : string)
| Log (text : string)
| Exit (code : Z).

(** The libraries and the runtime the program is linked against: sharp, the
    node:fs streams and directory calls, node:stream's pipeline, the rest of
    node:path, inquirer's two prompt rounds, chalk and [Number]. *)
Class World := {
  Sharp : Type;
  ReadStream : Type;
  WriteStream : Type;
  Number : string -> number;
  sharp : Sharp;
  sharp_toFormat : Sharp -> string -> Completion Sharp;
  sharp_webp : Sharp -> number -> Completion Sharp;
  sharp_avif : Sharp -> number -> Completion Sharp;
  sharp_jpeg : Sharp -> number -> Completion Sharp;
  sharp_png : Sharp -> number -> Completion Sharp;
  sharp_resize : Sharp -> ResizeOptions -> Completion Sharp;
  createReadStream : string -> Completion ReadStream;
  createWriteStream : string -> Completion WriteStream;
  pipeline : ReadStream -> Sharp -> WriteStream -> Completion unit;
  readdir : string -> Completion (list Dirent);
  access : string -> Completion unit;
  mkdir : string -> Completion unit;
  join : string -> string -> string;
  resolve : string -> string;
  prompt_base : Completion BaseAnswers;
  prompt_extra : Completion ExtraAnswers;
  chalk : string -> string -> string
}.

(** How an asynchronous computation ends: its promise is fulfilled, its
    promise is rejected, or the process was terminated by [process.exit]. *)
Inductive Outcome (A : Type) :=
| Resolved (a : A)
| Rejected (e : Error)
| Exited (code : Z).
Arguments Resolved {A} a.
Arguments Rejected {A} e.
Arguments Exited {A} code.

(** A computation: the events it performed and how it ended. *)
Definition M (A : Type) : Type := (list Event * Outcome A)%type.

Definition ret {A} (a : A) : M A := ([], Resolved a).

Definition bind {A B} (m : M A) (k : A -> M B) : M B :=
  match m with
  | (t, Resolved a) => let (t', o) := k a in ((t ++ t')%list, o)
  | (t, Rejected e) => (t, Rejected e)
  | (t, Exited c) => (t, Exited c)
  end.

Notation "x <- m ;; k" := (bind m (fun x => k))
  (at level 61, m at next level, right associativity).
Notation "m ;; k" := (bind m (fun _ => k))
  (at level 61, right associativity).

(** An external call recorded as event [ev]. *)
Definition call {A} (ev : Event) (c : Completion A) : M A :=
  match c with
  | Normal a => ([ev], Resolved a)
  | Throw e => ([ev], Rejected e)
  end.

(** An external call that leaves no event of its own. *)
Definition lift {A} (c : Completion A) : M A :=
  match c with
  | Normal a => ([], Resolved a)
  | Throw e => ([], Rejected e)
  end.

Definition tell (ev : Event) : M unit := ([ev], Resolved tt).

(** [try { m } catch (error) { handler(error) }] *)
Definition try_catch {A} (m : M A) (handler : Error -> M A) : M A :=
  match m with
  | (t, Rejected e) => let (t', o) := handler e in ((t ++ t')%list, o)
  | other => other
  end.

(** [console.log(text)] *)
Definition log (text : string) : M unit := tell (Log text).

(** [process.exit(code)]: nothing after it runs. *)
Definition process_exit {A} (code : Z) : M A := ([Exit code], Exited code).

(** [Promise.all] over promises obtained by calling an async function on each
    element in turn.  Every call is made, in order; the values are collected
    in the order of the calls; the aggregate rejects with the rejection of the
    first rejected promise of the array.  (A promise of this program is only
    rejected by a throw before its first suspension, so it is already rejected
    when the aggregate subscribes to it.) *)
Fixpoint Promise_all {A} (promises : list (M A)) : M (list A) :=
  match promises with
  | [] => ret []
  | (t, Exited c) :: _ => (t, Exited c)
  | (t, Resolved a) :: rest =>
      let (t', o) := Promise_all rest in
      ((t ++ t')%list,
       match o with
       | Resolved l => Resolved (a :: l)
       | Rejected e => Rejected e
       | Exited c => Exited c
       end)
  | (t, Rejected e) :: rest =>
      let (t', o) := Promise_all rest in
      ((t ++ t')%list,
       match o with
       | Exited c => Exited c
       | _ => Rejected e
       end)
  end.

(** ** utils/utils.ts *)

Module Utils.

Definition supported : list string := ["webp"; "png"; "jpeg"; "jpg"; "avif"].

Definition isImageType (filepath : string) : bool :=
  let name := Path.basename filepath in
  let ext := Path.extname filepath in
  let type := JS.index (JS.split "." name) 1 in
  let isImage :=
    JS.Array_includes supported type || JS.Array_includes supported (Some ext) in
  isImage.

(** [Number(str || fallback)] *)
Definition Number_or `{World} (str : option string) (fallback : Z) : number :=
  match str with
  | Some s => if JS.truthy str then Number s else Num fallback
  | None => Num fallback
  end.

Section WithWorld.
Context {W : World}.

Definition createDir (dirPath : string) : M unit :=
  let directory := resolve dirPath in
  try_catch (call (Access directory) (access directory))
            (fun _ => call (Mkdir directory) (mkdir directory)).

Definition getImagesFromDir (directory : string) : M (list FileInfo) :=
  contents <- call (Readdir directory) (readdir directory) ;;
  let images :=
    filter (fun item =>
              let fullPath := join (d_parentPath item) (d_name item) in
              d_isFile item && isImageType fullPath)
           contents in
  let fileImages :=
    map (fun item =>
           mkFileInfo (join (d_parentPath item) (d_name item))
                      (d_name item)
                      (Path.extname (d_name item)))
        images in
  ret fileImages.

Definition getSharpConverter (options : FormatOpts) : Completion Sharp :=
  let parts := JS.split "x" (dimensions options) in
  let strWidth := JS.index parts 0 in
  let strHeight := JS.index parts 1 in
  let width := Number_or strWidth 100 in
  let height := Number_or strHeight 100 in
  let dims := mkResizeOptions width height "contain" in
  match format options with
  | webp =>
      if negb (resize options) then sharp_toFormat sharp "webp"
      else bindC (sharp_webp sharp (quality options)) (fun s => sharp_resize s dims)
  | avif =>
      if negb (resize options) then sharp_toFormat sharp "avif"
      else bindC (sharp_avif sharp (quality options)) (fun s => sharp_resize s dims)
  | jpeg =>
      if negb (resize options) then sharp_toFormat sharp "jpeg"
      else bindC (sharp_jpeg sharp (quality options)) (fun s => sharp_resize s dims)
  | png =>
      if negb (resize options) then sharp_toFormat sharp "png"
      else bindC (sharp_png sharp (quality options)) (fun s => sharp_resize s dims)
  | jpg => sharp_toFormat sharp (format_str (format options))
  end.

(** The returned value is [undefined] ([None]) or the caught error. *)
Definition convertImage (inputFile outputFile : string) (options : FormatOpts)
  : M (option Error) :=
  tell (Convert inputFile outputFile) ;;
  readable <- lift (createReadStream inputFile) ;;
  writable <- lift (createWriteStream outputFile) ;;
  duplex <- lift (getSharpConverter options) ;;
  try_catch
    (lift (pipeline readable duplex writable) ;; ret None)
    (fun error => ret (Some error)).

(** [sleep(ms)]: a promise fulfilled after [ms] milliseconds; the delay has
    no counterpart here. *)
Definition sleep (ms : Z) : M unit := ret tt.

End WithWorld.

End Utils.

(** ** index.ts *)

Module Index.
Import Utils.

Definition newline : string := String (ascii_of_nat 10) EmptyString.

Definition getFileName (file : string) (format : Format) : string :=
  let newName := JS.concat_undef (JS.index (JS.split "." file) 0) "." ++ format_str format in
  newName.

Section WithWorld.
Context {W : World}.

Definition convertImages (inputDir outputDir : string) (options : FormatOpts)
  : M (list (option Error)) :=
  let format := format options in
  allImages <- getImagesFromDir inputDir ;;
  let imagesInDir :=
    filter (fun image => negb (JS.includes (name image) (format_str format)))
           allImages in
  (if (length imagesInDir =? 0)%nat then
     let _ := chalk "red.bold" ("No images in directory: " ++ newline ++ inputDir) in
     let _ := chalk "red.bold" "Exiting." in
     process_exit 0
   else ret tt) ;;
  createDir outputDir ;;
  let promises :=
    map (fun image =>
           let inputFile := resolve (path image) in
           let filename := getFileName (name image) format in
           let outputFile := join outputDir filename in
           convertImage inputFile outputFile options)
        imagesInDir in
  allResults <- Promise_all promises ;;
  ret allResults.

(** inquirer rejects with an error object, which is truthy, so the handler of
    a failed prompt always takes its [if (err)] branch. *)
Definition promptUser : M Answers :=
  baseAnswers <-
    try_catch (lift prompt_base)
              (fun err => log (chalk "red.bold" "Aborting.") ;; process_exit 1) ;;
  let outputPath := b_outputPath baseAnswers in
  let output :=
    if negb (JS.truthy (Some outputPath)) then b_inputPath baseAnswers
    else outputPath in
  if b_resize baseAnswers then
    extraAnswers <-
      try_catch (lift prompt_extra)
                (fun err => log (chalk "red.bold" "Aborting.") ;; process_exit 1) ;;
    let results :=
      mkAnswers (b_inputPath baseAnswers) output (b_format baseAnswers)
                (b_resize baseAnswers)
                (e_quality extraAnswers) (e_dimensions extraAnswers) in
    ret results
  else
    let results :=
      mkAnswers (b_inputPath baseAnswers) output (b_format baseAnswers)
                (b_resize baseAnswers) "100%" "None" in
    ret results.

Definition intro : M unit :=
  log (chalk "blueBright" "") ;;
  log (chalk "blueBright" "
	┏┓               
	┃ ┏┓┏┓┓┏┏┓┏┓╋┓┏  
	┗┛┗┛┛┗┗┛┗ ┛ ┗┗┫  
								┛  
			
	") ;;
  sleep 500 ;;
  log (chalk "blueBright" "...is an image processing and conversion CLI tool.") ;;
  log (chalk "blueBright.bold" "
💡 Tips:
	- To convert images in the current directory enter a period for the source folder: .
	- To use the same directory as the source simply press enter on the '(target)' prompt
	- If you just want to convert formats without compression or resize enter 'N' for the resize prompt: n
	").

Definition summarizeConversions {A} (results : list A) : M unit :=
  let count := length results in
  log (chalk "blue.bold"
         (JS.length_text count ++ " of " ++ JS.length_text count
          ++ " images converted.")) ;;
  log (chalk "greenBright.bold" "✅ All done!").

Definition summarizeAnswers (answers : Answers) : M unit :=
  log newline ;;
  log (chalk "blue.bold" "Source Directory: "
       ++ chalk "green.underline" (inputPath answers)) ;;
  log (chalk "blue.bold" "Output Directory: "
       ++ chalk "green.underline" (outputPath answers)) ;;
  log (chalk "blue.bold" "Format (convert to this): "
       ++ chalk "green.bold" (format_str (a_format answers))) ;;
  log newline.

Definition runConvertCLI : M unit :=
  intro ;;
  answers <- promptUser ;;
  summarizeAnswers answers ;;
  output <- convertImages (inputPath answers) (outputPath answers)
              (mkFormatOpts (a_format answers)
                 (a_resize answers)
                 (Number_or (Some (JS.replace "%" "" (a_quality answers))) 100)
                 (a_dimensions answers)) ;;
  summarizeConversions output.

(** The last statement of the file:
    [runConvertCLI().catch((err) => { log("Error:" + err); })], with the
    text of an error given by [toString]. *)
Definition main (toString : Error -> string) : M unit :=
  try_catch runConvertCLI (fun err => log ("Error:" ++ toString err)).

End WithWorld.

End Index.

(** ** The older compiled build of index (.mjs) *)

Module DistIndex.
Import Utils.

Definition newline : string := String (ascii_of_nat 10) EmptyString.

Definition getFileName (file : string) (format : Format) : string :=
  let newName := JS.concat_undef (JS.index (JS.split "." file) 0) "." ++ format_str format in
  newName.

Section WithWorld.
Context {W : World}.

Definition convertImages (inputDir outputDir : string) (options : FormatOpts)
  : M (list (option Error)) :=
  let format := format options in
  allImages <- getImagesFromDir outputDir ;;
  let imagesInDir :=
    filter (fun image => negb (JS.includes (name image) (format_str format)))
           allImages in
  (if (length imagesInDir =? 0)%nat then
     let _ := chalk "red.bold" ("No images in directory: " ++ newline ++ inputDir) in
     let _ := chalk "red.bold" "Exiting." in
     process_exit 0
   else ret tt) ;;
  let promises :=
    map (fun image =>
           let inputFile := resolve (path image) in
           let filename := getFileName (name image) format in
           let outputFile := join outputDir filename in
           convertImage inputFile outputFile options)
        imagesInDir in
  allResults <- Promise_all promises ;;
  ret allResults.

Definition promptUser : M Answers :=
  baseAnswers <-
    try_catch (lift prompt_base)
              (fun err =>
                 log err ;;
                 log (chalk "red.bold" "Aborting.") ;;
                 process_exit 1) ;;
  let outputPath := b_outputPath baseAnswers in
  let output :=
    if negb (JS.truthy (Some outputPath)) then b_inputPath baseAnswers
    else outputPath in
  if b_resize baseAnswers then
    extraAnswers <-
      try_catch (lift prompt_extra)
                (fun err =>
                   log err ;;
                   log (chalk "red.bold" "Aborting.") ;;
                   process_exit 1) ;;
    let results :=
      mkAnswers (b_inputPath baseAnswers) output (b_format baseAnswers)
                (b_resize baseAnswers)
                (e_quality extraAnswers) (e_dimensions extraAnswers) in
    ret results
  else
    let results :=
      mkAnswers (b_inputPath baseAnswers) output (b_format baseAnswers)
                (b_resize baseAnswers) "100%" "None" in
    ret results.

Definition summarizeConversions {A} (results : list A) : M unit :=
  let count := length results in
  log (chalk "blue.bold"
         (JS.length_text count ++ " of " ++ JS.length_text count
          ++ " images converted.")) ;;
  log (chalk "greenBright.bold" "✅ All done!").

Definition summarizeAnswers (answers : Answers) : M unit :=
  log newline ;;
  log (chalk "blue.bold" "Source Directory: "
       ++ chalk "green.underline" (inputPath answers)) ;;
  log (chalk "blue.bold" "Output Directory: "
       ++ chalk "green.underline" (outputPath answers)) ;;
  log (chalk "blue.bold" "Format (convert to this): "
       ++ chalk "green.bold" (format_str (a_format answers))) ;;
  log newline.

Definition runConvertCLI : M unit :=
  answers <- promptUser ;;
  summarizeAnswers answers ;;
  output <- convertImages (inputPath answers) (outputPath answers)
              (mkFormatOpts (a_format answers)
                 (a_resize answers)
                 (Number_or (Some (JS.replace "%" "" (a_quality answers))) 100)
                 (a_dimensions answers)) ;;
  summarizeConversions output.

(** The last statement of the file:
    [runConvertCLI().catch((err) => { log("Error:" + err); })], with the
    text of an error given by [toString]. *)
Definition main (toString : Error -> string) : M unit :=
  try_catch runConvertCLI (fun err => log ("Error:" ++ toString err)).

End WithWorld.

End DistIndex.

(** ** A concrete installation, used to run the program on examples

    sharp is represented by the chain of calls made on it and validates its
    arguments as its documentation states: a quality must be an integer in
    range, resize dimensions must be positive integers.  [Number] agrees with
    ECMAScript's string-to-number conversion on unsigned decimal integers
    below 2^53 and
    on strings without any numeric reading, such as the prompt's default
    [None]; signs, fractions, exponents and radix prefixes are not exercised
    by the examples and are not given a reading here.  A stream is identified
    by its file; the pipeline fails exactly on the files listed as corrupt. *)

Module Runtime.

Inductive SharpCall :=
| ToFormat (fmt : string)
| Encode (codec : string) (q : number)
| Resize (dims : ResizeOptions).

Definition is_digit (c : ascii) : bool :=
  let n := nat_of_ascii c in ((48 <=? n) && (n <=? 57))%nat.

Fixpoint digits_value (s : string) (acc : Z) : option Z :=
  match s with
  | EmptyString => Some acc
  | String c s' =>
      if is_digit c
      then digits_value s' (10 * acc + Z.of_nat (nat_of_ascii c - 48))
      else None
  end.

Definition string_to_number (s : string) : number :=
  match s with
  | EmptyString => Num 0
  | _ => match digits_value s 0 with
         | Some z => Num z
         | None => NaN
         end
  end.

Definition positive_integer (n : number) : bool :=
  match n with
  | Num z => 0 <? z
  | _ => false
  end.

Definition integer_between (lo hi : Z) (n : number) : bool :=
  match n with
  | Num z => (lo <=? z) && (z <=? hi)
  | _ => false
  end.

Definition do_toFormat (s : list SharpCall) (fmt : string) : Completion (list SharpCall) :=
  if existsb (String.eqb fmt) ["webp"; "png"; "jpeg"; "jpg"; "avif"]
  then Normal (s ++ [ToFormat fmt])%list
  else Throw "Expected a known format for format".

Definition encode (codec : string) (lo : Z) (s : list SharpCall) (q : number)
  : Completion (list SharpCall) :=
  if integer_between lo 100 q
  then Normal (s ++ [Encode codec q])%list
  else Throw "Expected integer in range for quality".

Definition do_resize (s : list SharpCall) (dims : ResizeOptions)
  : Completion (list SharpCall) :=
  if negb (positive_integer (width dims))
  then Throw "Expected positive integer for width"
  else if negb (positive_integer (height dims))
  then Throw "Expected positive integer for height"
  else Normal (s ++ [Resize dims])%list.

Definition run_pipeline (corrupt : list string) (readable : string)
  (duplex : list SharpCall) (writable : string) : Completion unit :=
  if existsb (String.eqb readable) corrupt
  then Throw "Input file contains unsupported image format"
  else Normal tt.

Definition dir_access (listing : string -> Completion (list Dirent)) (dir : string)
  : Completion unit :=
  match listing dir with
  | Normal _ => Normal tt
  | Throw e => Throw e
  end.

Definition world
  (listing : string -> Completion (list Dirent))
  (corrupt : list string)
  (base : Completion BaseAnswers)
  (extra : Completion ExtraAnswers) : World :=
  {| Sharp := list SharpCall;
     ReadStream := string;
     WriteStream := string;
     Number := string_to_number;
     sharp := [];
     sharp_toFormat := do_toFormat;
     sharp_webp := encode "webp" 1;
     sharp_avif := encode "avif" 1;
     sharp_jpeg := encode "jpeg" 1;
     sharp_png := encode "png" 0;
     sharp_resize := do_resize;
     createReadStream := fun f => Normal f;
     createWriteStream := fun f => Normal f;
     pipeline := run_pipeline corrupt;
     readdir := listing;
     access := dir_access listing;
     mkdir := fun _ => Normal tt;
     join := fun a b => a ++ "/" ++ b;
     resolve := fun p => p;
     prompt_base := base;
     prompt_extra := extra;
     chalk := fun _ text => text |}.

(** A source folder with five regular files and one entry that is not a
    regular file, and an empty target folder. *)
Definition listing (dir : string) : Completion (list Dirent) :=
  if String.eqb dir "photos" then
    Normal [ mkDirent "vacation.png" "photos" true;
             mkDirent "png_source.jpg" "photos" true;
             mkDirent "cat.jpg" "photos" true;
             mkDirent "notes.txt" "photos" true;
             mkDirent "old.webp" "photos" false;
             mkDirent "dog.jpeg" "photos" true ]
  else if String.eqb dir "out" then Normal []
  else Throw "ENOENT: no such file or directory".

Definition base_answers : BaseAnswers := mkBaseAnswers "photos" " " png false.
Definition extra_answers : ExtraAnswers := mkExtraAnswers "90%" "800x350".

(** The installation of the examples: [photos/cat.jpg] is corrupt. *)
Definition example : World :=
  world listing ["photos/cat.jpg"] (Normal base_answers) (Normal extra_answers).

(** The images the scanner finds in [photos]. *)
Definition photos : list FileInfo :=
  [ mkFileInfo "photos/vacation.png" "vacation.png" ".png";
    mkFileInfo "photos/png_source.jpg" "png_source.jpg" ".jpg";
    mkFileInfo "photos/cat.jpg" "cat.jpg" ".jpg";
    mkFileInfo "photos/dog.jpeg" "dog.jpeg" ".jpeg" ].

(** Plain transcoding to png. *)
Definition to_png : FormatOpts := mkFormatOpts png false (Num 100) "None".

(** Resizing with the dimensions prompt left at its default. *)
Definition resize_default : FormatOpts := mkFormatOpts webp true (Num 100) "None".

End Runtime.

(** * Properties *)

(** ** Strings *)

(** [has_char c s]: the character [c] occurs in [s]. *)
Fixpoint has_char (c : ascii) (s : string) : bool :=
  match s with
  | EmptyString => false
  | String a s' => Ascii.eqb a c || has_char c s'
  end.

(** The remainder of a string after its first segment: empty, or starting
    with the separator. *)
Definition starts_segment (sep : ascii) (rest : string) : Prop :=
  rest = "" \/ exists r, rest = String sep r.

(** [t] is the second dot-delimited token of [name]: the text between the
    first dot of [name] and its second dot, or its end when there is no second
    dot. *)
Definition second_token (name t : string) : Prop :=
  exists pre rest,
    name = pre ++ String "." (t ++ rest) /\
    has_char "." pre = false /\
    has_char "." t = false /\
    starts_segment "." rest.

(** [t] occurs in [s] as a contiguous substring. *)
Definition contains (s t : string) : Prop :=
  exists pre post, s = pre ++ t ++ post.

(** The conversions a run attempted: the input and output file of every call
    of [convertImage], in the order of the calls. *)
Fixpoint conversions (t : list Event) : list (string * string) :=
  match t with
  | [] => []
  | Convert i o :: t' => (i, o) :: conversions t'
  | _ :: t' => conversions t'
  end.

(** The directories a run listed, in order. *)
Fixpoint scans (t : list Event) : list string :=
  match t with
  | [] => []
  | Readdir d :: t' => d :: scans t'
  | _ :: t' => scans t'
  end.

(** The lines a run printed, in order. *)
Fixpoint printed (t : list Event) : list string :=
  match t with
  | [] => []
  | Log text :: t' => text :: printed t'
  | _ :: t' => printed t'
  end.

(** The filter of [convertImages]: the image's name does not contain the
    target format. *)
Definition not_in_target_format (fmt : Format) (image : FileInfo) : bool :=
  negb (JS.includes (name image) (format_str fmt)).

(** The input and output file [convertImages] derives for an image. *)
Definition files_of `{World} (outputDir : string) (fmt : Format) (image : FileInfo)
  : string * string :=
  (resolve (path image), join outputDir (Index.getFileName (name image) fmt)).

(** The conversion task [convertImages] builds for an image. *)
Definition task `{World} (outputDir : string) (options : FormatOpts)
  (image : FileInfo) : M (option Error) :=
  Utils.convertImage (resolve (path image))
    (join outputDir (Index.getFileName (name image) (format options))) options.

(** The promise [p] is fulfilled with [v]. *)
Definition fulfilled {A} (p : M A) (v : A) : Prop := snd p = Resolved v.

(** The computation [p] does not end the process. *)
Definition no_exit {A} (p : M A) : Prop := forall c, snd p <> Exited c.

(** A string of blanks only (possibly empty). *)
Fixpoint is_blank (s : string) : bool :=
  match s with
  | EmptyString => true
  | String c s' =>
      (Ascii.eqb c " " || Ascii.eqb c (ascii_of_nat 9)
       || Ascii.eqb c (ascii_of_nat 10) || Ascii.eqb c (ascii_of_nat 13))
      && is_blank s'
  end.

(** Where [extname] has seen a dot, there is a dot. *)
Definition dot_marked (p : string) (st : Path.ExtState) : Prop :=
  Path.startDot st = -1 \/
  (0 <= Path.startDot st /\
   String.get (Z.to_nat (Path.startDot st)) p = Some "."%char).

(** The check the classifier comes down to: the second dot-delimited token of
    the base name alone. *)
Definition token_check (p : string) : bool :=
  JS.Array_includes Utils.supported (JS.index (JS.split "." (Path.basename p)) 1).

(** The encoder call [getSharpConverter] makes for a format when resizing;
    jpg has none (it falls to the default case of the switch). *)
Definition encoder_of `{World} (fmt : Format) (q : number)
  : option (Completion Sharp) :=
  match fmt with
  | webp => Some (sharp_webp sharp q)
  | avif => Some (sharp_avif sharp q)
  | jpeg => Some (sharp_jpeg sharp q)
  | png => Some (sharp_png sharp q)
  | jpg => None
  end.

(** [Number(str || 100)] for a segment of the dimensions string. *)
Definition side `{World} (segment : string) : number :=
  match segment with
  | EmptyString => Num 100
  | _ => Number segment
  end.

(** The test of the scanner's filter on a directory entry. *)
Definition scanned_entry `{World} (item : Dirent) : bool :=
  d_isFile item && Utils.isImageType (join (d_parentPath item) (d_name item)).

(** The options [runConvertCLI] passes to [convertImages]. *)
Definition cli_options `{World} (answers : Answers) : FormatOpts :=
  mkFormatOpts (a_format answers) (a_resize answers)
    (Utils.Number_or (Some (JS.replace "%" "" (a_quality answers))) 100)
    (a_dimensions answers).

(** The answers [promptUser] returns from the answers of its prompts. *)
Definition answers_of (base : BaseAnswers) (quality dimensions : string) : Answers :=
  mkAnswers (b_inputPath base)
    (match b_outputPath base with
     | EmptyString => b_inputPath base
     | _ => b_outputPath base
     end)
    (b_format base) (b_resize base) quality dimensions.

Lemma app_empty_r (s : string) : s ++ "" = s.
Proof. induction s as [|c s IH]; simpl; [reflexivity | now rewrite IH]. Qed.

Lemma app_assoc_str (a b c : string) : (a ++ b) ++ c = a ++ b ++ c.
Proof. induction a as [|x a IH]; simpl; [reflexivity | now rewrite IH]. Qed.

Lemma split_not_nil sep s : JS.split sep s <> [].
Proof.
  destruct s as [|c s]; simpl; [discriminate|].
  destruct (Ascii.eqb c sep); [discriminate|].
  destruct (JS.split sep s); discriminate.
Qed.

(** Splitting a string without separator gives the string itself. *)
Lemma split_no_sep sep s : has_char sep s = false -> JS.split sep s = [s].
Proof.
  induction s as [|c s IH]; simpl; [reflexivity|].
  intros H. apply orb_false_iff in H as [Hc Hs].
  rewrite Hc, (IH Hs). reflexivity.
Qed.

(** Splitting at the first separator. *)
Lemma split_app sep a r :
  has_char sep a = false ->
  JS.split sep (a ++ String sep r) = a :: JS.split sep r.
Proof.
  induction a as [|c a IH]; simpl; intros H.
  - now rewrite Ascii.eqb_refl.
  - apply orb_false_iff in H as [Hc Ha].
    rewrite Hc, (IH Ha). reflexivity.
Qed.

(** Every string is its first segment followed by a remainder. *)
Lemma first_segment sep s :
  exists pre rest,
    s = pre ++ rest /\ has_char sep pre = false /\ starts_segment sep rest.
Proof.
  induction s as [|c s (pre & rest & E & Hp & Hr)].
  - exists "", "". repeat split; auto. now left.
  - destruct (Ascii.eqb c sep) eqn:Hc.
    + apply Ascii.eqb_eq in Hc. subst c.
      exists "", (String sep s). repeat split; auto. right. now exists s.
    + exists (String c pre), rest. simpl. rewrite Hc, Hp, <- E. auto.
Qed.

Lemma split_first sep pre rest :
  has_char sep pre = false -> starts_segment sep rest ->
  JS.index (JS.split sep (pre ++ rest)) 0 = Some pre.
Proof.
  intros Hp [->|[r ->]].
  - rewrite app_empty_r, split_no_sep by assumption. reflexivity.
  - rewrite split_app by assumption. reflexivity.
Qed.

Lemma split_second sep pre rest :
  has_char sep pre = false ->
  JS.index (JS.split sep (pre ++ rest)) 1 =
  match rest with
  | EmptyString => None
  | String _ r => JS.index (JS.split sep r) 0
  end \/ ~ starts_segment sep rest.
Proof.
  intros Hp. destruct rest as [|c r].
  - left. rewrite app_empty_r, split_no_sep by assumption. reflexivity.
  - destruct (Ascii.eqb c sep) eqn:Hc.
    + apply Ascii.eqb_eq in Hc. subst c. left.
      rewrite split_app by assumption. reflexivity.
    + right. intros [H|[r' H]]; [discriminate|].
      injection H as -> _. now rewrite Ascii.eqb_refl in Hc.
Qed.

Lemma prefix_app t post : String.prefix t (t ++ post) = true.
Proof.
  induction t as [|c t IH]; simpl; [now destruct post|].
  destruct (ascii_dec c c); [assumption | contradiction].
Qed.

Lemma prefix_inv t s : String.prefix t s = true -> exists post, s = t ++ post.
Proof.
  revert s. induction t as [|c t IH]; intros s H.
  - now exists s.
  - destruct s as [|d s]; simpl in H; [discriminate|].
    destruct (ascii_dec c d) as [->|]; [|discriminate].
    destruct (IH _ H) as [post ->]. now exists post.
Qed.

Lemma includes_nil t : JS.includes "" t = String.prefix t "" || false.
Proof. reflexivity. Qed.

Lemma includes_cons c s t :
  JS.includes (String c s) t = String.prefix t (String c s) || JS.includes s t.
Proof. reflexivity. Qed.

(** [includes] is the substring relation. *)
Lemma includes_spec s t :
  JS.includes s t = true <-> exists pre post, s = pre ++ t ++ post.
Proof.
  split.
  - induction s as [|c s IH]; intros H.
    + rewrite includes_nil, orb_false_r in H.
      destruct (prefix_inv _ _ H) as [post E]. now exists "", post.
    + rewrite includes_cons in H. apply orb_true_iff in H as [H|H].
      * destruct (prefix_inv _ _ H) as [post E]. now exists "", post.
      * destruct (IH H) as (pre & post & ->). now exists (String c pre), post.
  - intros (pre & post & ->).
    induction pre as [|c pre IH].
    + change ("" ++ t ++ post) with (t ++ post).
      destruct (t ++ post) eqn:E.
      * rewrite includes_nil, <- E, prefix_app. reflexivity.
      * rewrite includes_cons, <- E, prefix_app. reflexivity.
    + change (String c pre ++ t ++ post) with (String c (pre ++ t ++ post)).
      rewrite includes_cons, IH. apply orb_true_r.
Qed.

(** ** Paths *)

Lemma substring_zero n s : String.substring n 0 s = "".
Proof.
  revert s. induction n as [|n IH]; intros [|c s]; simpl; auto.
Qed.

Lemma substring_get n k s c :
  String.get n s = Some c ->
  exists r, String.substring n (S k) s = String c r.
Proof.
  revert s. induction n as [|n IH]; intros [|a s] H; simpl in *; try discriminate.
  - injection H as ->. eauto.
  - now apply IH.
Qed.

Lemma get_lt n s c : String.get n s = Some c -> (n < String.length s)%nat.
Proof.
  revert s. induction n as [|n IH]; intros [|a s] H; simpl in *; try discriminate.
  - lia.
  - apply IH in H. lia.
Qed.

Lemma is_char_get code c : Path.is_char code c = true -> code = Some c.
Proof.
  destruct code as [a|]; simpl; [|discriminate].
  intros H. apply Ascii.eqb_eq in H. now subst.
Qed.

Lemma extname_char_marked p i st :
  dot_marked p st ->
  dot_marked p (Path.extname_char (String.get i p) (Z.of_nat i) st).
Proof.
  intros H. unfold Path.extname_char.
  destruct (Path.end_ st =? -1); cbn [Path.startDot Path.end_ Path.preDotState
    Path.startPart Path.matchedSlash];
  destruct (Path.is_char (String.get i p) ".") eqn:Hd;
  destruct (Path.startDot st =? -1) eqn:Hs; cbn [negb];
  try destruct (Path.preDotState st =? 1); cbn [negb];
  try exact H;
  try (right; cbn [Path.startDot]; split; [lia|];
       rewrite Nat2Z.id; now apply is_char_get);
  try (destruct H as [H|H]; [left | right]; exact H).
Qed.

Lemma extname_loop_marked p n st :
  dot_marked p st -> dot_marked p (Path.extname_loop p n st).
Proof.
  revert st. induction n as [|i IH]; intros st H; simpl; [assumption|].
  destruct (Path.is_char (String.get i p) "/").
  - destruct (negb (Path.matchedSlash st)); [exact H | now apply IH].
  - apply IH. now apply extname_char_marked.
Qed.

(** [extname] returns the empty string or a string that starts with a dot. *)
Lemma extname_shape p :
  Path.extname p = "" \/ exists r, Path.extname p = String "." r.
Proof.
  unfold Path.extname.
  set (st := Path.extname_loop p _ _).
  assert (Hm : dot_marked p st).
  { apply extname_loop_marked. now left. }
  destruct (Path.startDot st =? -1) eqn:Hs; [now left|].
  destruct ((Path.end_ st =? -1) || (Path.preDotState st =? 0) ||
            ((Path.preDotState st =? 1) && (Path.startDot st =? Path.end_ st - 1)
             && (Path.startDot st =? Path.startPart st + 1))) eqn:Hc.
  - left. cbn [orb] in *. now rewrite Hc.
  - cbn [orb]. rewrite Hc.
    apply Z.eqb_neq in Hs. destruct Hm as [Hm|[Hge Hget]]; [contradiction|].
    pose proof (get_lt _ _ _ Hget) as Hlt.
    unfold JS.slice.
    replace (Path.startDot st <? 0) with false by (symmetry; apply Z.ltb_ge; lia).
    rewrite Z.min_l by lia.
    match goal with
    | |- context [String.substring _ ?m p] => destruct m as [|k]
    end.
    + left. apply substring_zero.
    + right. eapply substring_get. exact Hget.
Qed.

(** No supported type starts with a dot or is empty. *)
Lemma supported_not_ext p :
  JS.Array_includes Utils.supported (Some (Path.extname p)) = false.
Proof.
  destruct (extname_shape p) as [->|[r ->]]; reflexivity.
Qed.

(** ** The classifier and the output name *)

Lemma split_index1_token name t :
  JS.index (JS.split "." name) 1 = Some t <-> second_token name t.
Proof.
  split.
  - intros H.
    destruct (first_segment "." name) as (pre & rest & -> & Hp & [->|[r ->]]).
    + rewrite app_empty_r, split_no_sep in H by assumption. discriminate.
    + rewrite split_app in H by assumption. cbn [JS.index nth_error] in H.
      destruct (first_segment "." r) as (t' & rest' & -> & Ht & Hr).
      pose proof (split_first "." t' rest' Ht Hr) as E.
      unfold JS.index in E. cbn [nth_error] in E.
      assert (t' = t) as -> by congruence.
      exists pre, rest'. auto.
  - intros (pre & rest & -> & Hp & Ht & Hr).
    rewrite split_app by assumption.
    exact (split_first "." t rest Ht Hr).
Qed.

Lemma Array_includes_In arr x :
  JS.Array_includes arr (Some x) = true <-> In x arr.
Proof.
  unfold JS.Array_includes. rewrite existsb_exists. split.
  - intros (y & Hy & E). apply String.eqb_eq in E. now subst.
  - intros H. exists x. split; [assumption | apply String.eqb_refl].
Qed.

(** C3. [isImageType f] is true exactly when the canonical extension of [f]
    (with its leading dot, as [extname] returns it) or the second
    dot-delimited token of its base name is, case-sensitively, one of
    webp, png, jpeg, jpg, avif.  The function is total; it is true on
    [a.png] and false on [a.pngx], [a.tar.gz] and [photo.PNG.bak]. *)
Theorem isImageType_iff_token_or_extension :
  (forall f,
      Utils.isImageType f = true <->
      (In (Path.extname f) Utils.supported \/
       exists t, second_token (Path.basename f) t /\ In t Utils.supported))
  /\ Utils.isImageType "a.png" = true
  /\ Utils.isImageType "a.pngx" = false
  /\ Utils.isImageType "a.tar.gz" = false
  /\ Utils.isImageType "photo.PNG.bak" = false.
Proof.
  split; [|repeat split; reflexivity].
  intros f. unfold Utils.isImageType. rewrite orb_true_iff. split.
  - intros [H|H].
    + right. destruct (JS.index _ 1) as [t|] eqn:E; [|discriminate].
      exists t. split.
      * now apply split_index1_token.
      * now apply Array_includes_In.
    + left. now apply Array_includes_In.
  - intros [H|(t & Ht & Hin)].
    + right. now apply Array_includes_In.
    + left. apply split_index1_token in Ht. rewrite Ht.
      now apply Array_includes_In.
Qed.

(** C10. The extension disjunct of [isImageType] is false on every path,
    because [extname] yields the empty string or a string with a leading dot
    and no supported type has one; so [isImageType] equals the check of the
    second dot-delimited token of the base name alone. *)
Theorem isImageType_is_token_check (p : string) :
  JS.Array_includes Utils.supported (Some (Path.extname p)) = false /\
  Utils.isImageType p = token_check p.
Proof.
  split; [apply supported_not_ext|].
  unfold Utils.isImageType, token_check. rewrite supported_not_ext. apply orb_false_r.
Qed.

Lemma getFileName_segment sep file :
  exists pre rest,
    file = pre ++ rest /\ has_char sep pre = false /\ starts_segment sep rest /\
    JS.index (JS.split sep file) 0 = Some pre.
Proof.
  destruct (first_segment sep file) as (pre & rest & -> & Hp & Hr).
  exists pre, rest. repeat split; auto. now apply split_first.
Qed.

(** C6. [getFileName file format] is the part of [file] before its first
    dot (the whole of [file] when it has none), followed by a dot and the
    target format, in index.ts and in the compiled build alike;
    [photo.jpg] to webp gives [photo.webp], and [my.photo.v2.png] to jpg
    gives [my.jpg]. *)
Theorem getFileName_keeps_first_segment :
  (forall file format,
      exists pre rest,
        file = pre ++ rest /\
        has_char "." pre = false /\
        starts_segment "." rest /\
        Index.getFileName file format = pre ++ "." ++ format_str format /\
        DistIndex.getFileName file format = pre ++ "." ++ format_str format)
  /\ Index.getFileName "photo.jpg" webp = "photo.webp"
  /\ Index.getFileName "my.photo.v2.png" jpg = "my.jpg"
  /\ DistIndex.getFileName "photo.jpg" webp = "photo.webp"
  /\ DistIndex.getFileName "my.photo.v2.png" jpg = "my.jpg".
Proof.
  split; [|repeat split; reflexivity].
  intros file fmt.
  destruct (getFileName_segment "." file) as (pre & rest & E & Hp & Hr & Hi).
  exists pre, rest.
  unfold Index.getFileName, DistIndex.getFileName.
  rewrite Hi. cbn [JS.concat_undef].
  rewrite app_assoc_str. auto.
Qed.

(** ** Computations *)

Lemma bind_ret_r {A} (m : M A) : bind m ret = m.
Proof.
  destruct m as [t [a|e|c]]; simpl; try reflexivity.
  now rewrite app_nil_r.
Qed.

Lemma conversions_app t1 t2 :
  conversions (t1 ++ t2)%list = (conversions t1 ++ conversions t2)%list.
Proof.
  induction t1 as [|[] t1 IH]; simpl; auto. now rewrite IH.
Qed.

Lemma scans_app t1 t2 : scans (t1 ++ t2)%list = (scans t1 ++ scans t2)%list.
Proof.
  induction t1 as [|[] t1 IH]; simpl; auto. now rewrite IH.
Qed.

Lemma printed_app t1 t2 :
  printed (t1 ++ t2)%list = (printed t1 ++ printed t2)%list.
Proof.
  induction t1 as [|[] t1 IH]; simpl; auto. now rewrite IH.
Qed.

(** ** The single-file converter *)

Section Converter.
Context {W : World}.

(** What [convertImage] does, case by case on its set-up calls. *)
Lemma convertImage_cases inputFile outputFile options :
  Utils.convertImage inputFile outputFile options =
  ([Convert inputFile outputFile],
   match createReadStream inputFile with
   | Throw e => Rejected e
   | Normal readable =>
       match createWriteStream outputFile with
       | Throw e => Rejected e
       | Normal writable =>
           match Utils.getSharpConverter options with
           | Throw e => Rejected e
           | Normal duplex =>
               match pipeline readable duplex writable with
               | Normal _ => Resolved None
               | Throw e => Resolved (Some e)
               end
           end
       end
   end).
Proof.
  unfold Utils.convertImage, tell, bind, lift, try_catch, ret.
  destruct (createReadStream inputFile) as [readable|]; [|reflexivity].
  destruct (createWriteStream outputFile) as [writable|]; [|reflexivity].
  destruct (Utils.getSharpConverter options) as [duplex|]; [|reflexivity].
  destruct (pipeline readable duplex writable); reflexivity.
Qed.

Lemma convertImage_trace inputFile outputFile options :
  fst (Utils.convertImage inputFile outputFile options)
  = [Convert inputFile outputFile].
Proof. now rewrite convertImage_cases. Qed.

Lemma convertImage_no_exit inputFile outputFile options c :
  snd (Utils.convertImage inputFile outputFile options) <> Exited c.
Proof.
  rewrite convertImage_cases. cbn [snd].
  destruct (createReadStream inputFile) as [readable|]; [|discriminate].
  destruct (createWriteStream outputFile) as [writable|]; [|discriminate].
  destruct (Utils.getSharpConverter options) as [duplex|]; [|discriminate].
  destruct (pipeline readable duplex writable); discriminate.
Qed.

End Converter.

(** C9. Two options records with the same format and [resize = false] give
    the same converter, a plain [toFormat] of that format, whatever their
    quality and dimensions are. *)
Theorem getSharpConverter_ignores_quality_and_dimensions
  {W : World} (o1 o2 : FormatOpts) :
  format o1 = format o2 ->
  resize o1 = false ->
  resize o2 = false ->
  Utils.getSharpConverter o1 = Utils.getSharpConverter o2 /\
  Utils.getSharpConverter o1 = sharp_toFormat sharp (format_str (format o1)).
Proof.
  intros Hf H1 H2. unfold Utils.getSharpConverter.
  rewrite <- Hf, H1, H2. cbn [negb].
  destruct (format o1); split; reflexivity.
Qed.

Lemma getSharpConverter_ignores_quality_and_dimensions_witness :
  @Utils.getSharpConverter Runtime.example (mkFormatOpts webp false (Num 90) "800x350")
  = @Utils.getSharpConverter Runtime.example (mkFormatOpts webp false NaN "None")
  /\ @Utils.getSharpConverter Runtime.example (mkFormatOpts webp false (Num 90) "800x350")
     = Normal [Runtime.ToFormat "webp"].
Proof.
  apply (@getSharpConverter_ignores_quality_and_dimensions Runtime.example
           (mkFormatOpts webp false (Num 90) "800x350")
           (mkFormatOpts webp false NaN "None")); reflexivity.
Defined.

(** C1, as the code has it.  When creating the two streams and building the
    converter succeed, [convertImage] resolves: with no value when the
    pipeline succeeds and with the caught error when it fails.  It performs
    nothing but the conversion call itself and never ends the process. *)
Theorem convertImage_captures_pipeline_errors
  {W : World} (inputFile outputFile : string) (options : FormatOpts)
  (readable : ReadStream) (writable : WriteStream) (duplex : Sharp) :
  createReadStream inputFile = Normal readable ->
  createWriteStream outputFile = Normal writable ->
  Utils.getSharpConverter options = Normal duplex ->
  Utils.convertImage inputFile outputFile options =
  ([Convert inputFile outputFile],
   Resolved match pipeline readable duplex writable with
            | Normal _ => None
            | Throw error => Some error
            end).
Proof.
  intros Hr Hw Hd. rewrite convertImage_cases, Hr, Hw, Hd.
  destruct (pipeline readable duplex writable); reflexivity.
Qed.

Lemma convertImage_captures_pipeline_errors_witness :
  @Utils.convertImage Runtime.example "photos/cat.jpg" "out/cat.png"
    (mkFormatOpts png false (Num 100) "None")
  = ([Convert "photos/cat.jpg" "out/cat.png"],
     Resolved (Some "Input file contains unsupported image format"))
  /\ @Utils.convertImage Runtime.example "photos/dog.jpeg" "out/dog.png"
       (mkFormatOpts png false (Num 100) "None")
     = ([Convert "photos/dog.jpeg" "out/dog.png"], Resolved None).
Proof.
  split.
  - apply (@convertImage_captures_pipeline_errors Runtime.example
             "photos/cat.jpg" "out/cat.png"
             (mkFormatOpts png false (Num 100) "None")
             "photos/cat.jpg" "out/cat.png" [Runtime.ToFormat "png"]);
      reflexivity.
  - apply (@convertImage_captures_pipeline_errors Runtime.example
             "photos/dog.jpeg" "out/dog.png"
             (mkFormatOpts png false (Num 100) "None")
             "photos/dog.jpeg" "out/dog.png" [Runtime.ToFormat "png"]);
      reflexivity.
Defined.

(** C1, as stated, fails: the converter is built before the [try], so an
    exception of sharp's argument validation rejects the promise.  With
    [resize] chosen and the prompt's default dimensions [None], the width is
    [NaN] and [convertImage] rejects. *)
Lemma convertImage_can_reject :
  @Utils.convertImage Runtime.example "photos/dog.jpeg" "out/dog.webp"
    Runtime.resize_default
  = ([Convert "photos/dog.jpeg" "out/dog.webp"],
     Rejected "Expected positive integer for width")
  /\ ~ (forall (W : World) inputFile outputFile options,
          exists t r,
            @Utils.convertImage W inputFile outputFile options = (t, Resolved r)).
Proof.
  split; [reflexivity|].
  intros H.
  destruct (H Runtime.example "photos/dog.jpeg" "out/dog.webp"
              Runtime.resize_default) as (t & r & E).
  vm_compute in E. discriminate E.
Qed.

(** ** The orchestrator *)

Section PromiseAll.
Context {A : Type}.

Lemma Promise_all_trace (ps : list (M A)) :
  Forall no_exit ps ->
  fst (Promise_all ps) = concat (map fst ps) /\ no_exit (Promise_all ps).
Proof.
  induction 1 as [|[t o] ps Hp _ [IHt IHn]]; simpl.
  - split; [reflexivity | discriminate].
  - destruct (Promise_all ps) as [t' o'] eqn:E. cbn [fst] in IHt. subst t'.
    unfold no_exit in *. cbn [snd] in *.
    destruct o as [a|e|c]; cbn [fst snd].
    + split; [reflexivity|]. destruct o' as [l|e'|c']; try discriminate.
      destruct (IHn c'). reflexivity.
    + split; [reflexivity|]. destruct o' as [l|e'|c']; try discriminate.
      destruct (IHn c'). reflexivity.
    + destruct (Hp c). reflexivity.
Qed.

(** A fulfilled aggregate holds, position by position, the values of its
    promises. *)
Lemma Promise_all_resolved (ps : list (M A)) t vs :
  Promise_all ps = (t, Resolved vs) -> Forall2 fulfilled ps vs.
Proof.
  revert t vs. induction ps as [|[t0 o] ps IH]; intros t vs H; simpl in H.
  - injection H as _ <-. constructor.
  - destruct (Promise_all ps) as [t' o'] eqn:E.
    destruct o as [a|e|c]; [| |discriminate].
    + destruct o' as [l|e'|c']; try discriminate.
      injection H as _ <-. constructor; [reflexivity | eapply IH; reflexivity].
    + destruct o'; discriminate.
Qed.

(** When every promise is fulfilled, so is the aggregate. *)
Lemma Promise_all_fulfilled (ps : list (M A)) vs :
  Forall2 fulfilled ps vs -> snd (Promise_all ps) = Resolved vs.
Proof.
  induction 1 as [|[t o] v ps vs Hp _ IH]; simpl; [reflexivity|].
  unfold fulfilled in Hp. cbn [snd] in Hp. subst o.
  destruct (Promise_all ps) as [t' o']. cbn [snd] in *. now subst o'.
Qed.

End PromiseAll.

Section Orchestrator.
Context {W : World}.

Lemma getImagesFromDir_cases directory :
  Utils.getImagesFromDir directory =
  ([Readdir directory],
   match readdir directory with
   | Throw e => Rejected e
   | Normal contents =>
       Resolved
         (map (fun item =>
                 mkFileInfo (join (d_parentPath item) (d_name item))
                            (d_name item) (Path.extname (d_name item)))
              (filter (fun item =>
                         d_isFile item
                         && Utils.isImageType
                              (join (d_parentPath item) (d_name item)))
                      contents))
   end).
Proof.
  unfold Utils.getImagesFromDir, call, bind, ret.
  destruct (readdir directory); reflexivity.
Qed.

Lemma getImagesFromDir_trace directory t o :
  Utils.getImagesFromDir directory = (t, o) -> t = [Readdir directory].
Proof. rewrite getImagesFromDir_cases. now intros [= <- _]. Qed.

Lemma createDir_trace dirPath :
  conversions (fst (Utils.createDir dirPath)) = [] /\
  scans (fst (Utils.createDir dirPath)) = [] /\
  printed (fst (Utils.createDir dirPath)) = [].
Proof.
  unfold Utils.createDir, try_catch, call.
  destruct (access (resolve dirPath)); [repeat split|].
  destruct (mkdir (resolve dirPath)); repeat split.
Qed.

Lemma task_no_exit outputDir options images :
  Forall no_exit (map (task outputDir options) images).
Proof.
  apply Forall_forall. intros p Hp. apply in_map_iff in Hp as (img & <- & _).
  intros c. apply convertImage_no_exit.
Qed.

Lemma task_traces outputDir options images :
  concat (map fst (map (task outputDir options) images))
  = map (fun image => let (i, o) := files_of outputDir (format options) image in
                      Convert i o) images.
Proof.
  induction images as [|img images IH]; [reflexivity|].
  cbn [map concat]. rewrite IH. unfold task at 1.
  rewrite convertImage_trace. reflexivity.
Qed.

Lemma conversions_of_tasks outputDir fmt images :
  conversions (map (fun image => let (i, o) := files_of outputDir fmt image in
                                 Convert i o) images)
  = map (files_of outputDir fmt) images.
Proof.
  induction images as [|img images IH]; [reflexivity|].
  cbn [map]. destruct (files_of outputDir fmt img) as [i o] eqn:E.
  cbn [conversions]. now rewrite IH.
Qed.

Lemma scans_of_tasks outputDir fmt images :
  scans (map (fun image => let (i, o) := files_of outputDir fmt image in
                           Convert i o) images) = [] /\
  printed (map (fun image => let (i, o) := files_of outputDir fmt image in
                             Convert i o) images) = [].
Proof.
  induction images as [|img images [IH1 IH2]]; [split; reflexivity|].
  cbn [map]. destruct (files_of outputDir fmt img) as [i o]. now split.
Qed.

(** The dispatch step: all tasks are started, in the order of the images. *)
Lemma dispatch_trace outputDir options images :
  fst (Promise_all (map (task outputDir options) images))
  = map (fun image => let (i, o) := files_of outputDir (format options) image in
                      Convert i o) images
  /\ no_exit (Promise_all (map (task outputDir options) images)).
Proof.
  destruct (Promise_all_trace _ (task_no_exit outputDir options images)) as [Ht Hn].
  split; [|exact Hn]. rewrite Ht. apply task_traces.
Qed.

End Orchestrator.

Section Variants.
Context {W : World}.

(** index.ts, once the scan has returned. *)
Lemma Index_convertImages_cases inputDir outputDir options t0 scanned :
  Utils.getImagesFromDir inputDir = (t0, Resolved scanned) ->
  Index.convertImages inputDir outputDir options =
  match filter (not_in_target_format (format options)) scanned with
  | [] => ([Readdir inputDir; Exit 0], Exited 0)
  | kept =>
      match Utils.createDir outputDir with
      | (t1, Resolved _) =>
          let (t2, r) := Promise_all (map (task outputDir options) kept) in
          ((Readdir inputDir :: t1 ++ t2)%list, r)
      | (t1, Rejected e) => (Readdir inputDir :: t1, Rejected e)
      | (t1, Exited c) => (Readdir inputDir :: t1, Exited c)
      end
  end.
Proof.
  intros H. pose proof (getImagesFromDir_trace _ _ _ H) as ->.
  unfold Index.convertImages. rewrite H. cbn [bind].
  change (filter _ scanned)
    with (filter (not_in_target_format (format options)) scanned).
  destruct (filter (not_in_target_format (format options)) scanned)
    as [|img kept] eqn:E.
  - reflexivity.
  - cbn [length Nat.eqb bind ret].
    destruct (Utils.createDir outputDir) as [t1 [[]|e|c]]; cbn [app]; try reflexivity.
    change (map _ (img :: kept)) with (map (task outputDir options) (img :: kept)).
    rewrite bind_ret_r.
    destruct (Promise_all _) as [t2 r]. reflexivity.
Qed.

(** The compiled build, once the scan has returned. *)
Lemma DistIndex_convertImages_cases inputDir outputDir options t0 scanned :
  Utils.getImagesFromDir outputDir = (t0, Resolved scanned) ->
  DistIndex.convertImages inputDir outputDir options =
  match filter (not_in_target_format (format options)) scanned with
  | [] => ([Readdir outputDir; Exit 0], Exited 0)
  | kept =>
      let (t2, r) := Promise_all (map (task outputDir options) kept) in
      (Readdir outputDir :: t2, r)
  end.
Proof.
  intros H. pose proof (getImagesFromDir_trace _ _ _ H) as ->.
  unfold DistIndex.convertImages. rewrite H. cbn [bind].
  change (filter _ scanned)
    with (filter (not_in_target_format (format options)) scanned).
  destruct (filter (not_in_target_format (format options)) scanned)
    as [|img kept] eqn:E.
  - reflexivity.
  - cbn [length Nat.eqb bind ret].
    change (map _ (img :: kept)) with (map (task outputDir options) (img :: kept)).
    rewrite bind_ret_r.
    destruct (Promise_all _) as [t2 r]. reflexivity.
Qed.

End Variants.

(** C2, as the code has it.  When [convertImages] returns, its result
    sequence has one entry per
    image of the filtered list, and the entry at each position is the value
    with which the conversion of the image at that position was fulfilled
    (no value, or the caught error): the order is the order of the filtered
    list.  This holds for index.ts and for the compiled build.  And
    [convertImages] does return when the scan succeeds, the filtered list is
    not empty, the output directory is in place and every conversion is
    fulfilled. *)
Theorem convertImages_results_aligned
  {W : World} (inputDir outputDir : string) (options : FormatOpts) :
  (forall t0 scanned t results,
      Utils.getImagesFromDir inputDir = (t0, Resolved scanned) ->
      Index.convertImages inputDir outputDir options = (t, Resolved results) ->
      length results
      = length (filter (not_in_target_format (format options)) scanned)
      /\ Forall2 (fun image r => fulfilled (task outputDir options image) r)
                 (filter (not_in_target_format (format options)) scanned)
                 results)
  /\ (forall t0 scanned t results,
      Utils.getImagesFromDir outputDir = (t0, Resolved scanned) ->
      DistIndex.convertImages inputDir outputDir options = (t, Resolved results) ->
      length results
      = length (filter (not_in_target_format (format options)) scanned)
      /\ Forall2 (fun image r => fulfilled (task outputDir options image) r)
                 (filter (not_in_target_format (format options)) scanned)
                 results)
  /\ (forall t0 scanned results,
      Utils.getImagesFromDir inputDir = (t0, Resolved scanned) ->
      filter (not_in_target_format (format options)) scanned <> [] ->
      snd (Utils.createDir outputDir) = Resolved tt ->
      Forall2 (fun image r => fulfilled (task outputDir options image) r)
              (filter (not_in_target_format (format options)) scanned)
              results ->
      snd (Index.convertImages inputDir outputDir options) = Resolved results)
  /\ (forall t0 scanned results,
      Utils.getImagesFromDir outputDir = (t0, Resolved scanned) ->
      filter (not_in_target_format (format options)) scanned <> [] ->
      Forall2 (fun image r => fulfilled (task outputDir options image) r)
              (filter (not_in_target_format (format options)) scanned)
              results ->
      snd (DistIndex.convertImages inputDir outputDir options) = Resolved results).
Proof.
  assert (Hall : forall kept t results,
             Promise_all (map (task outputDir options) kept) = (t, Resolved results) ->
             length results = length kept /\
             Forall2 (fun image r => fulfilled (task outputDir options image) r)
                     kept results).
  { intros kept t results H. apply Promise_all_resolved in H.
    assert (F : Forall2 (fun image r => fulfilled (task outputDir options image) r)
                        kept results).
    { revert results H. induction kept as [|img kept IH]; intros results H;
        inversion H; subst; constructor; auto. }
    split; [symmetry; eapply Forall2_length; exact F | exact F]. }
  assert (Hret : forall kept results,
             Forall2 (fun image r => fulfilled (task outputDir options image) r)
                     kept results ->
             snd (Promise_all (map (task outputDir options) kept)) = Resolved results).
  { intros kept results F. apply Promise_all_fulfilled.
    induction F; constructor; auto. }
  repeat split.
  - rewrite (Index_convertImages_cases _ _ _ _ _ H) in H0.
    destruct (filter _ scanned) as [|img kept]; [discriminate|].
    destruct (Utils.createDir outputDir) as [t1 [[]|e|c]]; try discriminate.
    destruct (Promise_all _) as [t2 r] eqn:E. injection H0 as _ ->.
    now apply (Hall _ _ _ E).
  - rewrite (Index_convertImages_cases _ _ _ _ _ H) in H0.
    destruct (filter _ scanned) as [|img kept]; [discriminate|].
    destruct (Utils.createDir outputDir) as [t1 [[]|e|c]]; try discriminate.
    destruct (Promise_all _) as [t2 r] eqn:E. injection H0 as _ ->.
    now apply (Hall _ _ _ E).
  - rewrite (DistIndex_convertImages_cases _ _ _ _ _ H) in H0.
    destruct (filter _ scanned) as [|img kept]; [discriminate|].
    destruct (Promise_all _) as [t2 r] eqn:E. injection H0 as _ ->.
    now apply (Hall _ _ _ E).
  - rewrite (DistIndex_convertImages_cases _ _ _ _ _ H) in H0.
    destruct (filter _ scanned) as [|img kept]; [discriminate|].
    destruct (Promise_all _) as [t2 r] eqn:E. injection H0 as _ ->.
    now apply (Hall _ _ _ E).
  - intros t0 scanned results H Hne Hdir F.
    rewrite (Index_convertImages_cases _ _ _ _ _ H).
    destruct (filter _ scanned) as [|img kept]; [contradiction|].
    destruct (Utils.createDir outputDir) as [t1 o]. cbn [snd] in Hdir. subst o.
    pose proof (Hret _ _ F) as E.
    destruct (Promise_all _) as [t2 r]. exact E.
  - intros t0 scanned results H Hne F.
    rewrite (DistIndex_convertImages_cases _ _ _ _ _ H).
    destruct (filter _ scanned) as [|img kept]; [contradiction|].
    pose proof (Hret _ _ F) as E.
    destruct (Promise_all _) as [t2 r]. exact E.
Qed.

Lemma convertImages_results_aligned_witness :
  (length [Some "Input file contains unsupported image format"; None]
   = length (filter (not_in_target_format png) Runtime.photos)
   /\ Forall2 (fun image r =>
                 fulfilled (@task Runtime.example "out" Runtime.to_png image) r)
              (filter (not_in_target_format png) Runtime.photos)
              [Some "Input file contains unsupported image format"; None])
  /\ snd (@Index.convertImages Runtime.example "photos" "out" Runtime.to_png)
     = Resolved [Some "Input file contains unsupported image format"; None].
Proof.
  destruct (@convertImages_results_aligned Runtime.example "photos" "out"
              Runtime.to_png) as (H1 & _ & H3 & _).
  split.
  - apply (H1 [Readdir "photos"] Runtime.photos
              [Readdir "photos"; Access "out";
               Convert "photos/cat.jpg" "out/cat.png";
               Convert "photos/dog.jpeg" "out/dog.png"]); reflexivity.
  - apply (H3 [Readdir "photos"] Runtime.photos);
      [reflexivity | discriminate | reflexivity | repeat constructor].
Defined.

(** C2, as stated, fails: a filtered list does not always lead to a result
    sequence.  With resize chosen and the dimensions left at the prompt's
    default, the scan finds four images, none is filtered out, the set-up of
    every conversion throws, and [convertImages] rejects instead of
    returning four outcomes. *)
Lemma convertImages_can_reject_instead_of_returning :
  @Utils.getImagesFromDir Runtime.example "photos"
  = ([Readdir "photos"], Resolved Runtime.photos)
  /\ length (filter (not_in_target_format webp) Runtime.photos) = 4%nat
  /\ snd (@Index.convertImages Runtime.example "photos" "out"
            Runtime.resize_default)
     = Rejected "Expected positive integer for width"
  /\ ~ (forall (W : World) inputDir outputDir options t0 scanned,
          Utils.getImagesFromDir inputDir = (t0, Resolved scanned) ->
          exists t results,
            Index.convertImages inputDir outputDir options
            = (t, Resolved results)
            /\ length results
               = length (filter (not_in_target_format (format options)) scanned)).
Proof.
  split; [reflexivity|]. split; [reflexivity|]. split; [reflexivity|].
  intros H.
  destruct (H Runtime.example "photos" "out" Runtime.resize_default
              [Readdir "photos"] Runtime.photos eq_refl) as (t & results & E & _).
  vm_compute in E. discriminate E.
Qed.



Lemma Promise_all_scans {W : World} outputDir options kept :
  scans (fst (Promise_all (map (task outputDir options) kept))) = [].
Proof.
  destruct (dispatch_trace outputDir options kept) as [-> _].
  apply scans_of_tasks.
Qed.

(** C5, on the code.  index.ts lists the input directory and nothing else;
    the compiled .mjs build lists the output directory instead
    (while its own message names the input directory). *)
Theorem convertImages_scanned_directory
  {W : World} (inputDir outputDir : string) (options : FormatOpts) :
  scans (fst (Index.convertImages inputDir outputDir options)) = [inputDir] /\
  scans (fst (DistIndex.convertImages inputDir outputDir options)) = [outputDir].
Proof.
  split.
  - pose proof (getImagesFromDir_cases inputDir) as H.
    destruct (readdir inputDir) as [contents|e].
    + rewrite (Index_convertImages_cases _ _ _ _ _ H).
      destruct (filter (not_in_target_format (format options)) _)
        as [|img kept]; [reflexivity|].
      destruct (createDir_trace outputDir) as (_ & Hs & _).
      pose proof (Promise_all_scans outputDir options (img :: kept)) as Hp.
      destruct (Utils.createDir outputDir) as [t1 [[]|e|c]]; cbn [fst] in *;
        cbn [scans]; try (now rewrite Hs).
      destruct (Promise_all _) as [t2 r]. cbn [fst] in *.
      cbn [scans]. now rewrite scans_app, Hs, Hp.
    + unfold Index.convertImages. rewrite H. reflexivity.
  - pose proof (getImagesFromDir_cases outputDir) as H.
    destruct (readdir outputDir) as [contents|e].
    + rewrite (DistIndex_convertImages_cases _ _ _ _ _ H).
      destruct (filter (not_in_target_format (format options)) _)
        as [|img kept]; [reflexivity|].
      pose proof (Promise_all_scans outputDir options (img :: kept)) as Hp.
      destruct (Promise_all _) as [t2 r]. cbn [fst] in *.
      cbn [scans]. now rewrite Hp.
    + unfold DistIndex.convertImages. rewrite H. reflexivity.
Qed.

(** C7, on the code.  When the filtered list is empty, [convertImages] lists
    the directory and ends the process with code 0: no conversion is
    attempted, and nothing is printed, because the two messages are styled
    but never passed to [log]. *)
Theorem convertImages_exits_silently_without_images
  {W : World} (inputDir outputDir : string) (options : FormatOpts) :
  (forall t0 scanned,
      Utils.getImagesFromDir inputDir = (t0, Resolved scanned) ->
      filter (not_in_target_format (format options)) scanned = [] ->
      Index.convertImages inputDir outputDir options
      = ([Readdir inputDir; Exit 0], Exited 0)
      /\ printed (fst (Index.convertImages inputDir outputDir options)) = []
      /\ conversions (fst (Index.convertImages inputDir outputDir options)) = [])
  /\ (forall t0 scanned,
      Utils.getImagesFromDir outputDir = (t0, Resolved scanned) ->
      filter (not_in_target_format (format options)) scanned = [] ->
      DistIndex.convertImages inputDir outputDir options
      = ([Readdir outputDir; Exit 0], Exited 0)
      /\ printed (fst (DistIndex.convertImages inputDir outputDir options)) = []
      /\ conversions (fst (DistIndex.convertImages inputDir outputDir options)) = []).
Proof.
  split; intros t0 scanned H E.
  - rewrite (Index_convertImages_cases _ _ _ _ _ H), E. repeat split.
  - rewrite (DistIndex_convertImages_cases _ _ _ _ _ H), E. repeat split.
Qed.

Lemma convertImages_exits_silently_without_images_witness :
  @Index.convertImages Runtime.example "out" "out" Runtime.to_png
  = ([Readdir "out"; Exit 0], Exited 0)
  /\ printed (fst (@Index.convertImages Runtime.example "out" "out"
                     Runtime.to_png)) = []
  /\ conversions (fst (@Index.convertImages Runtime.example "out" "out"
                         Runtime.to_png)) = [].
Proof.
  destruct (@convertImages_exits_silently_without_images Runtime.example
              "out" "out" Runtime.to_png) as (H1 & _).
  apply (H1 [Readdir "out"] []); reflexivity.
Defined.

(** C8, as the code has it.  When the prompts are answered, the effective
    output directory is the input directory if the supplied output path is
    the empty string, and the supplied path, unchanged, in every other case;
    index.ts and the compiled build agree. *)
Theorem promptUser_output_defaults_when_empty
  {W : World} (base : BaseAnswers) :
  prompt_base = Normal base ->
  (b_resize base = true -> exists extra, prompt_extra = Normal extra) ->
  exists answers,
    Index.promptUser = ([], Resolved answers) /\
    DistIndex.promptUser = ([], Resolved answers) /\
    inputPath answers = b_inputPath base /\
    (b_outputPath base = "" -> outputPath answers = b_inputPath base) /\
    (b_outputPath base <> "" -> outputPath answers = b_outputPath base).
Proof.
  intros Hb He.
  unfold Index.promptUser, DistIndex.promptUser. rewrite Hb.
  cbn [lift try_catch bind].
  destruct (b_resize base) eqn:Hr.
  - destruct (He eq_refl) as [extra Hx]. rewrite Hx.
    cbn [lift try_catch bind ret app].
    eexists. split; [reflexivity|]. split; [reflexivity|].
    cbn [inputPath outputPath]. split; [reflexivity|].
    destruct (b_outputPath base); cbn [JS.truthy negb]; split; congruence.
  - cbn [ret app].
    eexists. split; [reflexivity|]. split; [reflexivity|].
    cbn [inputPath outputPath]. split; [reflexivity|].
    destruct (b_outputPath base); cbn [JS.truthy negb]; split; congruence.
Qed.

Lemma promptUser_output_defaults_when_empty_witness :
  exists answers,
    @Index.promptUser Runtime.example = ([], Resolved answers) /\
    @DistIndex.promptUser Runtime.example = ([], Resolved answers) /\
    inputPath answers = "photos" /\
    (" " = "" -> outputPath answers = "photos") /\
    (" " <> "" -> outputPath answers = " ").
Proof.
  apply (@promptUser_output_defaults_when_empty Runtime.example
           Runtime.base_answers); [reflexivity | discriminate].
Defined.

(** C8, as stated, fails on a whitespace-only output path: a single blank is
    answered, and the effective output directory is that blank, not the
    input directory. *)
Lemma promptUser_keeps_blank_output :
  is_blank (b_outputPath Runtime.base_answers) = true
  /\ (exists answers,
        @Index.promptUser Runtime.example = ([], Resolved answers) /\
        outputPath answers = " " /\
        outputPath answers <> b_inputPath Runtime.base_answers)
  /\ ~ (forall (W : World) base t answers,
          prompt_base = Normal base ->
          is_blank (b_outputPath base) = true ->
          Index.promptUser = (t, Resolved answers) ->
          outputPath answers = b_inputPath base).
Proof.
  split; [reflexivity|]. split.
  - eexists. split; [reflexivity|]. split; [reflexivity | discriminate].
  - intros H.
    specialize (H Runtime.example Runtime.base_answers [] _
                  eq_refl eq_refl eq_refl).
    discriminate H.
Qed.

(** * Further properties of the code *)

(** ** utils: directory bootstrap, scanner, converter set-up *)

(** X1. [createDir] creates the directory only when the access check fails,
    and only the resolved path; the error of the access check is discarded,
    and [createDir] rejects exactly when both the check and the creation
    fail, with the error of the creation. *)
Theorem createDir_rejects_only_with_mkdir_error {W : World} (dirPath : string) :
  (forall e,
      snd (Utils.createDir dirPath) = Rejected e <->
      (exists e0, access (resolve dirPath) = Throw e0)
      /\ mkdir (resolve dirPath) = Throw e)
  /\ (forall d,
      In (Mkdir d) (fst (Utils.createDir dirPath)) <->
      d = resolve dirPath /\ exists e0, access (resolve dirPath) = Throw e0)
  /\ (forall c, snd (Utils.createDir dirPath) <> Exited c).
Proof.
  unfold Utils.createDir, try_catch, call.
  destruct (access (resolve dirPath)) as [[]|e0] eqn:Ea.
  - cbn [fst snd]. split; [|split].
    + intros e. split; [discriminate | intros [[e1 H] _]; discriminate].
    + intros d. split.
      * intros [H|[]]. discriminate.
      * intros [_ [e1 H]]. discriminate.
    + discriminate.
  - destruct (mkdir (resolve dirPath)) as [[]|e1] eqn:Em; cbn [fst snd app];
      (split; [|split]).
    + intros e. split; [discriminate | intros [_ H]; discriminate].
    + intros d. split.
      * intros [H|[H|[]]]; [discriminate|]. injection H as <-. eauto.
      * intros [-> _]. right. now left.
    + discriminate.
    + intros e. split.
      * intros [= ->]. eauto.
      * intros [_ [= ->]]. reflexivity.
    + intros d. split.
      * intros [H|[H|[]]]; [discriminate|]. injection H as <-. eauto.
      * intros [-> _]. right. now left.
    + discriminate.
Qed.

Lemma isImageType_token p : Utils.isImageType p = token_check p.
Proof.
  unfold Utils.isImageType, token_check.
  rewrite supported_not_ext. apply orb_false_r.
Qed.

Lemma filter_length_bound {A} (f : A -> bool) (l : list A) :
  (length (filter f l) <= length l)%nat.
Proof.
  induction l as [|a l IH]; simpl; [lia|]. destruct (f a); simpl; lia.
Qed.

(** X2. When the directory can be read, [getImagesFromDir] returns one
    record for each entry that is a regular file and whose joined path the
    classifier accepts, in listing order and with the entry's name; entries
    that are not regular files never appear.  Every record keeps
    [ext = extname name], an extension that is empty or starts with a dot,
    and a path whose base name has a supported second token. *)
Theorem getImagesFromDir_records
  {W : World} (directory : string) (contents : list Dirent) :
  readdir directory = Normal contents ->
  exists images,
    Utils.getImagesFromDir directory = ([Readdir directory], Resolved images)
    /\ map name images = map d_name (filter scanned_entry contents)
    /\ map path images
       = map (fun item => join (d_parentPath item) (d_name item))
             (filter scanned_entry contents)
    /\ (length images <= length contents)%nat
    /\ Forall (fun image =>
                 ext image = Path.extname (name image)
                 /\ (ext image = "" \/ exists r, ext image = String "." r)
                 /\ token_check (path image) = true)
              images.
Proof.
  intros H. rewrite getImagesFromDir_cases, H.
  eexists. split; [reflexivity|].
  change (filter _ contents) with (filter scanned_entry contents).
  repeat split.
  - now rewrite map_map.
  - now rewrite map_map.
  - rewrite length_map. apply filter_length_bound.
  - apply Forall_forall. intros image Hi.
    apply in_map_iff in Hi as (item & <- & Hf).
    apply filter_In in Hf as [_ Hf]. cbn [ext name path].
    repeat split.
    + apply extname_shape.
    + rewrite <- isImageType_token. unfold scanned_entry in Hf.
      now apply andb_true_iff in Hf as [_ Hf].
Qed.

Lemma getImagesFromDir_records_witness :
  exists images,
    @Utils.getImagesFromDir Runtime.example "photos"
    = ([Readdir "photos"], Resolved images)
    /\ map name images
       = map d_name
           (filter (@scanned_entry Runtime.example)
              [ mkDirent "vacation.png" "photos" true;
                mkDirent "png_source.jpg" "photos" true;
                mkDirent "cat.jpg" "photos" true;
                mkDirent "notes.txt" "photos" true;
                mkDirent "old.webp" "photos" false;
                mkDirent "dog.jpeg" "photos" true ])
    /\ map path images
       = map (fun item => @join Runtime.example (d_parentPath item) (d_name item))
           (filter (@scanned_entry Runtime.example)
              [ mkDirent "vacation.png" "photos" true;
                mkDirent "png_source.jpg" "photos" true;
                mkDirent "cat.jpg" "photos" true;
                mkDirent "notes.txt" "photos" true;
                mkDirent "old.webp" "photos" false;
                mkDirent "dog.jpeg" "photos" true ])
    /\ (length images <= 6)%nat
    /\ Forall (fun image =>
                 ext image = Path.extname (name image)
                 /\ (ext image = "" \/ exists r, ext image = String "." r)
                 /\ token_check (path image) = true)
              images.
Proof.
  apply (@getImagesFromDir_records Runtime.example "photos"). reflexivity.
Defined.

Lemma Number_or_side {W : World} segment :
  Utils.Number_or (Some segment) 100 = side segment.
Proof. destruct segment; reflexivity. Qed.

(** X3. For the format jpg the resize request is ignored: whatever
    [resize], [quality] and [dimensions] are, the converter is the plain
    [toFormat] of jpg, so no resizing and no quality setting ever applies to
    jpg output. *)
Theorem getSharpConverter_jpg_never_resizes {W : World} (o1 o2 : FormatOpts) :
  format o1 = jpg ->
  format o2 = jpg ->
  Utils.getSharpConverter o1 = Utils.getSharpConverter o2
  /\ Utils.getSharpConverter o1 = sharp_toFormat sharp "jpg".
Proof.
  intros H1 H2. unfold Utils.getSharpConverter. rewrite H1, H2.
  split; reflexivity.
Qed.

Lemma getSharpConverter_jpg_never_resizes_witness :
  @Utils.getSharpConverter Runtime.example (mkFormatOpts jpg true (Num 65) "800x350")
  = @Utils.getSharpConverter Runtime.example (mkFormatOpts jpg false NaN "None")
  /\ @Utils.getSharpConverter Runtime.example (mkFormatOpts jpg true (Num 65) "800x350")
     = Normal [Runtime.ToFormat "jpg"].
Proof.
  apply (@getSharpConverter_jpg_never_resizes Runtime.example
           (mkFormatOpts jpg true (Num 65) "800x350")
           (mkFormatOpts jpg false NaN "None")); reflexivity.
Defined.

(** X4. When resizing to webp, avif, jpeg or png, the converter is the
    format's encoder at the given quality followed by a contain-fit resize.
    The box is read from the dimensions string split on [x]: the first
    segment is the width and the second the height, each through [Number],
    an empty or missing segment counts as 100, and segments after the second
    are ignored. *)
Theorem getSharpConverter_resize_box {W : World} (o : FormatOpts) :
  resize o = true ->
  forall enc, encoder_of (format o) (quality o) = Some enc ->
  (forall w h rest,
      dimensions o = w ++ String "x" (h ++ rest) ->
      has_char "x" w = false ->
      has_char "x" h = false ->
      starts_segment "x" rest ->
      Utils.getSharpConverter o
      = bindC enc (fun s => sharp_resize s (mkResizeOptions (side w) (side h) "contain")))
  /\ (has_char "x" (dimensions o) = false ->
      Utils.getSharpConverter o
      = bindC enc (fun s => sharp_resize s
                     (mkResizeOptions (side (dimensions o)) (Num 100) "contain"))).
Proof.
  intros Hr enc He. split.
  - intros w h rest Hd Hw Hh Hrest.
    unfold Utils.getSharpConverter. rewrite Hd, Hr.
    rewrite split_app by assumption.
    change (JS.index (w :: JS.split "x" (h ++ rest)) 0) with (Some w).
    change (JS.index (w :: JS.split "x" (h ++ rest)) 1)
      with (JS.index (JS.split "x" (h ++ rest)) 0).
    rewrite (split_first "x" h rest Hh Hrest), !Number_or_side.
    cbn [negb]. unfold encoder_of in He.
    destruct (format o); try discriminate; injection He as <-; reflexivity.
  - intros Hd.
    unfold Utils.getSharpConverter. rewrite Hr.
    rewrite split_no_sep by assumption.
    change (JS.index [dimensions o] 0) with (Some (dimensions o)).
    change (JS.index [dimensions o] 1) with (@None string).
    rewrite Number_or_side. cbn [negb Utils.Number_or].
    unfold encoder_of in He.
    destruct (format o); try discriminate; injection He as <-; reflexivity.
Qed.

Lemma getSharpConverter_resize_box_witness :
  @Utils.getSharpConverter Runtime.example
    (mkFormatOpts webp true (Num 90) "800x350x2")
  = Normal [Runtime.Encode "webp" (Num 90);
            Runtime.Resize (mkResizeOptions (Num 800) (Num 350) "contain")].
Proof.
  destruct (@getSharpConverter_resize_box Runtime.example
              (mkFormatOpts webp true (Num 90) "800x350x2") eq_refl
              (Normal [Runtime.Encode "webp" (Num 90)]) eq_refl) as [H _].
  apply (H "800" "350" "x2"); [reflexivity | reflexivity | reflexivity |].
  right. now exists "2".
Defined.

(** X5. The promise of [convertImage] is rejected exactly when one of its
    three set-up calls throws, with the error of the first that does (read
    stream, then write stream, then converter); a pipeline failure never
    rejects it. *)
Theorem convertImage_rejects_iff_setup_throws
  {W : World} (inputFile outputFile : string) (options : FormatOpts) (e : Error) :
  snd (Utils.convertImage inputFile outputFile options) = Rejected e <->
  createReadStream inputFile = Throw e
  \/ ((exists readable, createReadStream inputFile = Normal readable)
      /\ createWriteStream outputFile = Throw e)
  \/ ((exists readable, createReadStream inputFile = Normal readable)
      /\ (exists writable, createWriteStream outputFile = Normal writable)
      /\ Utils.getSharpConverter options = Throw e).
Proof.
  rewrite convertImage_cases. cbn [snd].
  destruct (createReadStream inputFile) as [readable|e1].
  - destruct (createWriteStream outputFile) as [writable|e2].
    + destruct (Utils.getSharpConverter options) as [duplex|e3].
      * split.
        -- destruct (pipeline readable duplex writable); discriminate.
        -- intros [H|[[_ H]|(_ & _ & H)]]; discriminate.
      * split.
        -- intros [= ->]. right. right. eauto.
        -- intros [H|[[_ H]|(_ & _ & H)]]; try discriminate.
           now injection H as ->.
    + split.
      * intros [= ->]. right. left. eauto.
      * intros [H|[[_ H]|(_ & [w H] & _)]]; try discriminate.
        now injection H as ->.
  - split.
    + intros [= ->]. now left.
    + intros [H|[[[r H] _]|([r H] & _)]]; try discriminate.
      now injection H as ->.
Qed.

(** ** index: the batch, seen as a whole *)

Lemma Promise_all_first_rejection {A} (before after : list (M A)) (p : M A) e :
  Forall (fun q => exists v, fulfilled q v) before ->
  snd p = Rejected e ->
  Forall no_exit after ->
  snd (Promise_all (before ++ p :: after)%list) = Rejected e.
Proof.
  intros Hb Hp Ha. induction Hb as [|[t o] before [v Hv] _ IH].
  - cbn [app]. destruct p as [t o]. cbn [snd] in Hp. subst o. simpl.
    destruct (Promise_all_trace after Ha) as [_ Hn].
    destruct (Promise_all after) as [t' o']. cbn [snd].
    destruct o' as [l|e'|c]; try reflexivity.
    destruct (Hn c). reflexivity.
  - unfold fulfilled in Hv. cbn [snd] in Hv. subst o. simpl.
    destruct (Promise_all (before ++ p :: after)%list) as [t' o'].
    cbn [snd] in *. now subst o'.
Qed.

Lemma Index_conversions {W : World} inputDir outputDir options t0 scanned :
  Utils.getImagesFromDir inputDir = (t0, Resolved scanned) ->
  snd (Utils.createDir outputDir) = Resolved tt ->
  conversions (fst (Index.convertImages inputDir outputDir options))
  = map (files_of outputDir (format options))
        (filter (not_in_target_format (format options)) scanned).
Proof.
  intros H Hdir.
  rewrite (Index_convertImages_cases _ _ _ _ _ H).
  destruct (filter (not_in_target_format (format options)) scanned)
    as [|img kept]; [reflexivity|].
  destruct (Utils.createDir outputDir) as [t1 o] eqn:Ed.
  cbn [snd] in Hdir. subst o.
  destruct (createDir_trace outputDir) as (Hc & _). rewrite Ed in Hc.
  destruct (dispatch_trace outputDir options (img :: kept)) as [Ht _].
  destruct (Promise_all _) as [t2 r]. cbn [fst] in *. subst t2.
  cbn [conversions]. rewrite conversions_app, Hc.
  apply conversions_of_tasks.
Qed.

(** X6. The batch is not fail-soft against a rejected conversion: when the
    scan and the directory bootstrap succeed and some conversion is rejected
    (its set-up threw), [convertImages] rejects with the error of the first
    such conversion in list order, although every conversion of the filtered
    list, before and after it, was started. *)
Theorem convertImages_rejects_with_first_rejection
  {W : World} (inputDir outputDir : string) (options : FormatOpts)
  (t0 : list Event) (scanned before after : list FileInfo) (image : FileInfo)
  (e : Error) :
  Utils.getImagesFromDir inputDir = (t0, Resolved scanned) ->
  snd (Utils.createDir outputDir) = Resolved tt ->
  filter (not_in_target_format (format options)) scanned
  = (before ++ image :: after)%list ->
  Forall (fun img => exists v, fulfilled (task outputDir options img) v) before ->
  snd (task outputDir options image) = Rejected e ->
  snd (Index.convertImages inputDir outputDir options) = Rejected e
  /\ conversions (fst (Index.convertImages inputDir outputDir options))
     = map (files_of outputDir (format options)) (before ++ image :: after)%list.
Proof.
  intros H Hdir Hk Hb Hi. split.
  - rewrite (Index_convertImages_cases _ _ _ _ _ H), Hk.
    assert (E : snd (Promise_all
                       (map (task outputDir options) (before ++ image :: after)%list))
                = Rejected e).
    { rewrite map_app. cbn [map]. apply Promise_all_first_rejection.
      - apply Forall_forall. intros q Hq.
        apply in_map_iff in Hq as (img & <- & Hin).
        rewrite Forall_forall in Hb. now apply Hb.
      - exact Hi.
      - apply task_no_exit. }
    destruct (before ++ image :: after)%list as [|img kept] eqn:Ek.
    + destruct before; discriminate.
    + destruct (Utils.createDir outputDir) as [t1 o]. cbn [snd] in Hdir. subst o.
      destruct (Promise_all _) as [t2 r]. exact E.
  - rewrite <- Hk. eapply Index_conversions; eassumption.
Qed.

Lemma convertImages_rejects_with_first_rejection_witness :
  snd (@Index.convertImages Runtime.example "photos" "out" Runtime.resize_default)
  = Rejected "Expected positive integer for width"
  /\ conversions (fst (@Index.convertImages Runtime.example "photos" "out"
                         Runtime.resize_default))
     = map (@files_of Runtime.example "out" webp) ([] ++ Runtime.photos)%list.
Proof.
  apply (@convertImages_rejects_with_first_rejection Runtime.example
           "photos" "out" Runtime.resize_default [Readdir "photos"]
           Runtime.photos []
           [ mkFileInfo "photos/png_source.jpg" "png_source.jpg" ".jpg";
             mkFileInfo "photos/cat.jpg" "cat.jpg" ".jpg";
             mkFileInfo "photos/dog.jpeg" "dog.jpeg" ".jpeg" ]
           (mkFileInfo "photos/vacation.png" "vacation.png" ".png"));
    try reflexivity.
  constructor.
Defined.

(** X7. Filesystem failures reject the batch before any conversion is
    started.  If the directory listing fails, [convertImages] rejects with
    its error right after the listing, in both builds (the compiled build
    lists the output directory).  In index.ts, if the filtered list is not
    empty and the output directory can be neither accessed nor created, it
    rejects with the creation error. *)
Theorem convertImages_filesystem_failures
  {W : World} (inputDir outputDir : string) (options : FormatOpts) :
  (forall e,
      readdir inputDir = Throw e ->
      Index.convertImages inputDir outputDir options
      = ([Readdir inputDir], Rejected e))
  /\ (forall e,
      readdir outputDir = Throw e ->
      DistIndex.convertImages inputDir outputDir options
      = ([Readdir outputDir], Rejected e))
  /\ (forall t0 scanned e0 e,
      Utils.getImagesFromDir inputDir = (t0, Resolved scanned) ->
      filter (not_in_target_format (format options)) scanned <> [] ->
      access (resolve outputDir) = Throw e0 ->
      mkdir (resolve outputDir) = Throw e ->
      Index.convertImages inputDir outputDir options
      = ([Readdir inputDir; Access (resolve outputDir); Mkdir (resolve outputDir)],
         Rejected e)).
Proof.
  split; [|split].
  - intros e H. unfold Index.convertImages.
    rewrite getImagesFromDir_cases, H. reflexivity.
  - intros e H. unfold DistIndex.convertImages.
    rewrite getImagesFromDir_cases, H. reflexivity.
  - intros t0 scanned e0 e H Hne Ha Hm.
    rewrite (Index_convertImages_cases _ _ _ _ _ H).
    destruct (filter (not_in_target_format (format options)) scanned)
      as [|img kept]; [contradiction|].
    unfold Utils.createDir, try_catch, call. rewrite Ha, Hm. reflexivity.
Qed.

Lemma convertImages_filesystem_failures_witness :
  @Index.convertImages Runtime.example "missing" "out" Runtime.to_png
  = ([Readdir "missing"], Rejected "ENOENT: no such file or directory").
Proof.
  destruct (@convertImages_filesystem_failures Runtime.example "missing" "out"
              Runtime.to_png) as (H & _).
  apply H. reflexivity.
Defined.

(** ** Names: output names, the filter and the classifier *)

Lemma getFileName_shape file :
  exists pre,
    has_char "." pre = false /\
    forall fmt, Index.getFileName file fmt = pre ++ String "." (format_str fmt).
Proof.
  destruct (getFileName_segment "." file) as (pre & rest & E & Hp & Hr & Hi).
  exists pre. split; [assumption|]. intros fmt.
  unfold Index.getFileName. rewrite Hi. cbn [JS.concat_undef].
  now rewrite app_assoc_str.
Qed.

Lemma getFileName_of_output pre ending fmt :
  has_char "." pre = false ->
  Index.getFileName (pre ++ String "." ending) fmt
  = pre ++ String "." (format_str fmt).
Proof.
  intros Hp. unfold Index.getFileName.
  rewrite (split_first "." pre (String "." ending) Hp) by (right; eauto).
  cbn [JS.concat_undef]. now rewrite app_assoc_str.
Qed.

(** X8. Output names compose: renaming an output name again gives the same
    result as renaming the original name directly, so [getFileName] is
    idempotent for a fixed format.  An output name always contains its
    target format, so a file produced by a conversion is filtered out by a
    later batch with the same target. *)
Theorem getFileName_composes (file : string) (fmt1 fmt2 : Format) :
  Index.getFileName (Index.getFileName file fmt1) fmt2 = Index.getFileName file fmt2
  /\ Index.getFileName (Index.getFileName file fmt1) fmt1 = Index.getFileName file fmt1
  /\ (forall p e,
         not_in_target_format fmt1
           (mkFileInfo p (Index.getFileName file fmt1) e) = false).
Proof.
  destruct (getFileName_shape file) as (pre & Hp & H).
  rewrite !H. repeat split.
  - now apply getFileName_of_output.
  - now apply getFileName_of_output.
  - intros p e. unfold not_in_target_format. cbn [name].
    apply negb_false_iff, includes_spec.
    exists (pre ++ "."), "". rewrite app_empty_r, app_assoc_str. reflexivity.
Qed.

Lemma substring_prefix m s : exists post, s = String.substring 0 m s ++ post.
Proof.
  revert m. induction s as [|c s IH]; intros [|m]; simpl.
  - now exists "".
  - now exists "".
  - now exists (String c s).
  - destruct (IH m) as [post E]. exists post. now rewrite <- E.
Qed.

Lemma substring_contained n m s : contains s (String.substring n m s).
Proof.
  revert n. induction s as [|c s IH]; intros n.
  - exists "", "". now destruct n, m.
  - destruct n as [|n].
    + destruct (substring_prefix m (String c s)) as [post E].
      exists "", post. exact E.
    + destruct (IH n) as (pre & post & E).
      exists (String c pre), post. simpl. now rewrite <- E.
Qed.

(** The extension is a piece of the path. *)
Lemma extname_contained p : contains p (Path.extname p).
Proof.
  unfold Path.extname.
  destruct (_ || _); [now exists "", p|].
  unfold JS.slice. apply substring_contained.
Qed.

Lemma contains_filtered fmt image :
  contains (name image) (format_str fmt) ->
  not_in_target_format fmt image = false.
Proof.
  intros H. unfold not_in_target_format.
  now apply negb_false_iff, includes_spec.
Qed.

(** X9. An image that is already in the target format is never converted:
    if its canonical extension is a dot followed by the target format, or
    if the second dot-delimited token of its name is the target format, the
    filter of [convertImages] drops it. *)
Theorem already_in_target_format_is_skipped (fmt : Format) (image : FileInfo) :
  Path.extname (name image) = String "." (format_str fmt)
  \/ second_token (name image) (format_str fmt) ->
  not_in_target_format fmt image = false.
Proof.
  intros [H|(pre & rest & E & _)]; apply contains_filtered.
  - destruct (extname_contained (name image)) as (pre & post & E).
    rewrite H in E. exists (pre ++ "."), post.
    rewrite E at 1. rewrite app_assoc_str. reflexivity.
  - exists (pre ++ "."), rest. rewrite E at 1.
    rewrite app_assoc_str. reflexivity.
Qed.

Lemma already_in_target_format_is_skipped_witness :
  not_in_target_format jpeg (mkFileInfo "photos/a.b.jpeg" "a.b.jpeg" ".jpeg") = false.
Proof.
  apply (already_in_target_format_is_skipped jpeg
           (mkFileInfo "photos/a.b.jpeg" "a.b.jpeg" ".jpeg")).
  left. reflexivity.
Defined.

Lemma no_slash_get s i :
  has_char "/" s = false -> Path.is_char (String.get i s) "/" = false.
Proof.
  revert i. induction s as [|c s IH]; intros i H; [now destruct i|].
  simpl in H. apply orb_false_iff in H as [Hc Hs].
  destruct i as [|i]; simpl; [exact Hc | now apply IH].
Qed.

Lemma basename_loop_settled p n st :
  has_char "/" p = false -> Path.b_end st <> -1 ->
  Path.basename_loop p n st = st.
Proof.
  intros Hp He. induction n as [|i IH]; [reflexivity|].
  simpl. rewrite (no_slash_get p i Hp).
  apply Z.eqb_neq in He. now rewrite He.
Qed.

Lemma substring_full s : String.substring 0 (String.length s) s = s.
Proof. induction s as [|c s IH]; simpl; [reflexivity | now rewrite IH]. Qed.

(** The base name of a name without path separator is the name. *)
Lemma basename_slash_free p : has_char "/" p = false -> Path.basename p = p.
Proof.
  intros Hp. unfold Path.basename.
  destruct (String.length p) as [|k] eqn:El.
  - destruct p; [reflexivity | discriminate].
  - cbn [Path.basename_loop]. rewrite (no_slash_get p k Hp).
    cbn [Path.b_end Path.b_start Z.eqb Pos.eqb].
    rewrite basename_loop_settled by (cbn [Path.b_end]; auto; lia).
    cbn [Path.b_end Path.b_start].
    replace (Z.of_nat k + 1 =? -1) with false by (symmetry; apply Z.eqb_neq; lia).
    unfold JS.slice. rewrite El.
    replace (0 <? 0) with false by reflexivity.
    replace (Z.of_nat k + 1 <? 0) with false by (symmetry; apply Z.ltb_ge; lia).
    rewrite Z.min_l by lia. rewrite Z.min_l by lia.
    replace (Z.to_nat (Z.of_nat k + 1 - 0)) with (S k) by lia.
    cbn [Z.to_nat]. rewrite <- El. apply substring_full.
Qed.

Lemma isImageType_of_name file a b rest :
  has_char "/" file = false ->
  file = a ++ String "." (b ++ rest) ->
  has_char "." a = false ->
  has_char "." b = false ->
  starts_segment "." rest ->
  Utils.isImageType file = existsb (String.eqb b) Utils.supported.
Proof.
  intros Hs E Ha Hb Hr.
  rewrite isImageType_token. unfold token_check.
  rewrite basename_slash_free by assumption.
  rewrite E, split_app by assumption.
  change (JS.index (a :: JS.split "." (b ++ rest)) 1)
    with (JS.index (JS.split "." (b ++ rest)) 0).
  now rewrite (split_first "." b rest Hb Hr).
Qed.

(** X10. On a name without path separator the classifier looks at the text
    between the first and the second dot only: the name is an image exactly
    when that text is a supported type, whatever follows it, and a name
    without any dot is not an image.  So [a.png.bak] is classified as an
    image and [a.b.png] is not. *)
Theorem isImageType_second_token_decides (file : string) :
  has_char "/" file = false ->
  (forall a b rest,
      file = a ++ String "." (b ++ rest) ->
      has_char "." a = false ->
      has_char "." b = false ->
      starts_segment "." rest ->
      Utils.isImageType file = existsb (String.eqb b) Utils.supported)
  /\ (has_char "." file = false -> Utils.isImageType file = false).
Proof.
  intros Hs. split.
  - intros a b rest. now apply isImageType_of_name.
  - intros Hd. rewrite isImageType_token. unfold token_check.
    rewrite basename_slash_free, split_no_sep by assumption. reflexivity.
Qed.

Lemma isImageType_second_token_decides_witness :
  Utils.isImageType "a.png.bak" = existsb (String.eqb "png") Utils.supported
  /\ Utils.isImageType "a.b.png" = existsb (String.eqb "b") Utils.supported.
Proof.
  split.
  - destruct (isImageType_second_token_decides "a.png.bak" eq_refl) as [H _].
    apply (H "a" "png" ".bak"); try reflexivity. right. now exists "bak".
  - destruct (isImageType_second_token_decides "a.b.png" eq_refl) as [H _].
    apply (H "a" "b" ".png"); try reflexivity. right. now exists "png".
Defined.

Lemma has_char_app c a b :
  has_char c (a ++ b) = has_char c a || has_char c b.
Proof.
  induction a as [|x a IH]; simpl; [reflexivity|].
  now rewrite IH, orb_assoc.
Qed.

(** X11. Every output name the batch derives from a name without path
    separator is itself classified as an image, so a later scan of the output
    directory lists the converted files. *)
Theorem output_names_are_images (file : string) (fmt : Format) :
  has_char "/" file = false ->
  Utils.isImageType (Index.getFileName file fmt) = true.
Proof.
  intros Hs.
  destruct (getFileName_segment "." file) as (pre & rest & E & Hp & Hr & Hi).
  assert (Hn : Index.getFileName file fmt = pre ++ String "." (format_str fmt ++ "")).
  { unfold Index.getFileName. rewrite Hi. cbn [JS.concat_undef].
    now rewrite app_assoc_str, app_empty_r. }
  rewrite E, has_char_app in Hs. apply orb_false_iff in Hs as [Hs _].
  rewrite (isImageType_of_name _ pre (format_str fmt) "").
  - now destruct fmt.
  - rewrite Hn, app_empty_r, has_char_app, Hs. now destruct fmt.
  - exact Hn.
  - exact Hp.
  - now destruct fmt.
  - now left.
Qed.

Lemma output_names_are_images_witness :
  Utils.isImageType (Index.getFileName "my.photo.v2.png" avif) = true.
Proof.
  apply (output_names_are_images "my.photo.v2.png" avif). reflexivity.
Defined.

(** ** The prompts and the run *)

Section Prompts.
Context {W : World}.

Lemma Index_promptUser_cases :
  Index.promptUser =
  match prompt_base with
  | Throw e => ([Log (chalk "red.bold" "Aborting."); Exit 1], Exited 1)
  | Normal base =>
      if b_resize base then
        match prompt_extra with
        | Throw e => ([Log (chalk "red.bold" "Aborting."); Exit 1], Exited 1)
        | Normal extra =>
            ([], Resolved (answers_of base (e_quality extra) (e_dimensions extra)))
        end
      else ([], Resolved (answers_of base "100%" "None"))
  end.
Proof.
  unfold Index.promptUser, answers_of.
  destruct prompt_base as [base|e]; [|reflexivity].
  cbn [lift try_catch bind].
  destruct (b_resize base).
  - destruct prompt_extra as [extra|e]; [|reflexivity].
    cbn [lift try_catch bind ret app]. now destruct (b_outputPath base).
  - cbn [ret app]. now destruct (b_outputPath base).
Qed.

Lemma DistIndex_promptUser_cases :
  DistIndex.promptUser =
  match prompt_base with
  | Throw e => ([Log e; Log (chalk "red.bold" "Aborting."); Exit 1], Exited 1)
  | Normal base =>
      if b_resize base then
        match prompt_extra with
        | Throw e =>
            ([Log e; Log (chalk "red.bold" "Aborting."); Exit 1], Exited 1)
        | Normal extra =>
            ([], Resolved (answers_of base (e_quality extra) (e_dimensions extra)))
        end
      else ([], Resolved (answers_of base "100%" "None"))
  end.
Proof.
  unfold DistIndex.promptUser, answers_of.
  destruct prompt_base as [base|e]; [|reflexivity].
  cbn [lift try_catch bind].
  destruct (b_resize base).
  - destruct prompt_extra as [extra|e]; [|reflexivity].
    cbn [lift try_catch bind ret app]. now destruct (b_outputPath base).
  - cbn [ret app]. now destruct (b_outputPath base).
Qed.

End Prompts.

(** X12. An interrupted prompt ends the process with code 1 and [promptUser]
    never rejects: when the first prompt round fails, or resize was chosen
    and the second round fails, index.ts prints [Aborting.] and exits with
    code 1; the compiled build prints the error first, then [Aborting.]. *)
Theorem promptUser_aborts_with_exit_1 {W : World} :
  (forall e,
      prompt_base = Throw e ->
      Index.promptUser
      = ([Log (chalk "red.bold" "Aborting."); Exit 1], Exited 1)
      /\ DistIndex.promptUser
         = ([Log e; Log (chalk "red.bold" "Aborting."); Exit 1], Exited 1))
  /\ (forall base e,
      prompt_base = Normal base ->
      b_resize base = true ->
      prompt_extra = Throw e ->
      Index.promptUser
      = ([Log (chalk "red.bold" "Aborting."); Exit 1], Exited 1)
      /\ DistIndex.promptUser
         = ([Log e; Log (chalk "red.bold" "Aborting."); Exit 1], Exited 1))
  /\ (forall e, snd Index.promptUser <> Rejected e)
  /\ (forall e, snd DistIndex.promptUser <> Rejected e).
Proof.
  rewrite Index_promptUser_cases, DistIndex_promptUser_cases.
  repeat split.
  - now rewrite H.
  - now rewrite H.
  - now rewrite H, H0, H1.
  - now rewrite H, H0, H1.
  - intros e. destruct prompt_base as [base|]; [|discriminate].
    destruct (b_resize base); [|discriminate].
    destruct prompt_extra; discriminate.
  - intros e. destruct prompt_base as [base|]; [|discriminate].
    destruct (b_resize base); [|discriminate].
    destruct prompt_extra; discriminate.
Qed.

Lemma promptUser_aborts_with_exit_1_witness :
  @Index.promptUser
    (Runtime.world Runtime.listing [] (Throw "User force closed the prompt")
       (Normal Runtime.extra_answers))
  = ([Log "Aborting."; Exit 1], Exited 1)
  /\ @DistIndex.promptUser
       (Runtime.world Runtime.listing [] (Throw "User force closed the prompt")
          (Normal Runtime.extra_answers))
     = ([Log "User force closed the prompt"; Log "Aborting."; Exit 1], Exited 1).
Proof.
  destruct (@promptUser_aborts_with_exit_1
              (Runtime.world Runtime.listing []
                 (Throw "User force closed the prompt")
                 (Normal Runtime.extra_answers))) as (H & _).
  apply (H "User force closed the prompt"). reflexivity.
Defined.

(** X13. When resize is declined, the answers of [promptUser] do not depend
    on the second prompt round: it resolves with quality [100%] and
    dimensions [None] whatever that round would answer, and also when it
    would fail.  When resize is chosen and the second round is answered, its
    quality and dimensions are returned.  Input path, format and resize
    choice are passed through unchanged in both cases. *)
Theorem promptUser_quality_and_dimensions {W : World} (base : BaseAnswers) :
  prompt_base = Normal base ->
  (b_resize base = false ->
   exists answers,
     Index.promptUser = ([], Resolved answers)
     /\ DistIndex.promptUser = ([], Resolved answers)
     /\ a_quality answers = "100%" /\ a_dimensions answers = "None"
     /\ inputPath answers = b_inputPath base
     /\ a_format answers = b_format base /\ a_resize answers = false)
  /\ (forall extra,
       b_resize base = true ->
       prompt_extra = Normal extra ->
       exists answers,
         Index.promptUser = ([], Resolved answers)
         /\ DistIndex.promptUser = ([], Resolved answers)
         /\ a_quality answers = e_quality extra
         /\ a_dimensions answers = e_dimensions extra
         /\ inputPath answers = b_inputPath base
         /\ a_format answers = b_format base /\ a_resize answers = true).
Proof.
  intros Hb. rewrite Index_promptUser_cases, DistIndex_promptUser_cases, Hb.
  split.
  - intros Hr. rewrite Hr. eexists. repeat split. exact Hr.
  - intros extra Hr He. rewrite Hr, He. eexists. repeat split. exact Hr.
Qed.

Lemma promptUser_quality_and_dimensions_witness :
  exists answers,
    @Index.promptUser
      (Runtime.world Runtime.listing [] (Normal Runtime.base_answers)
         (Throw "User force closed the prompt"))
    = ([], Resolved answers)
    /\ @DistIndex.promptUser
         (Runtime.world Runtime.listing [] (Normal Runtime.base_answers)
            (Throw "User force closed the prompt"))
       = ([], Resolved answers)
    /\ a_quality answers = "100%" /\ a_dimensions answers = "None"
    /\ inputPath answers = "photos"
    /\ a_format answers = png /\ a_resize answers = false.
Proof.
  destruct (@promptUser_quality_and_dimensions
              (Runtime.world Runtime.listing [] (Normal Runtime.base_answers)
                 (Throw "User force closed the prompt"))
              Runtime.base_answers eq_refl) as (H & _).
  apply H. reflexivity.
Defined.

Section Run.
Context {W : World}.

Lemma intro_resolved : Index.intro = (fst Index.intro, Resolved tt).
Proof. reflexivity. Qed.

Lemma intro_quiet :
  scans (fst Index.intro) = [] /\ conversions (fst Index.intro) = [].
Proof. split; reflexivity. Qed.

Lemma Index_summarizeAnswers_resolved answers :
  Index.summarizeAnswers answers
  = (fst (Index.summarizeAnswers answers), Resolved tt)
  /\ scans (fst (Index.summarizeAnswers answers)) = []
  /\ conversions (fst (Index.summarizeAnswers answers)) = [].
Proof. repeat split. Qed.

Lemma DistIndex_summarizeAnswers_resolved answers :
  DistIndex.summarizeAnswers answers
  = (fst (DistIndex.summarizeAnswers answers), Resolved tt)
  /\ scans (fst (DistIndex.summarizeAnswers answers)) = []
  /\ conversions (fst (DistIndex.summarizeAnswers answers)) = [].
Proof. repeat split. Qed.

Lemma Index_summarizeConversions_cases {A} (results : list A) :
  Index.summarizeConversions results
  = ([Log (chalk "blue.bold"
             (JS.length_text (length results) ++ " of "
              ++ JS.length_text (length results) ++ " images converted."));
      Log (chalk "greenBright.bold" "✅ All done!")],
     Resolved tt).
Proof. reflexivity. Qed.

Lemma DistIndex_summarizeConversions_cases {A} (results : list A) :
  DistIndex.summarizeConversions results
  = ([Log (chalk "blue.bold"
             (JS.length_text (length results) ++ " of "
              ++ JS.length_text (length results) ++ " images converted."));
      Log (chalk "greenBright.bold" "✅ All done!")],
     Resolved tt).
Proof. reflexivity. Qed.

Lemma Index_convertImages_returns inputDir outputDir options t0 scanned results :
  Utils.getImagesFromDir inputDir = (t0, Resolved scanned) ->
  filter (not_in_target_format (format options)) scanned <> [] ->
  snd (Utils.createDir outputDir) = Resolved tt ->
  Forall2 (fun image r => fulfilled (task outputDir options image) r)
          (filter (not_in_target_format (format options)) scanned) results ->
  snd (Index.convertImages inputDir outputDir options) = Resolved results.
Proof.
  intros H Hne Hdir F.
  rewrite (Index_convertImages_cases _ _ _ _ _ H).
  assert (E : snd (Promise_all
                     (map (task outputDir options)
                        (filter (not_in_target_format (format options)) scanned)))
              = Resolved results).
  { apply Promise_all_fulfilled. clear - F.
    remember (filter (not_in_target_format (format options)) scanned) as kept.
    clear Heqkept. induction F; constructor; auto. }
  destruct (filter (not_in_target_format (format options)) scanned)
    as [|img kept]; [contradiction|].
  destruct (Utils.createDir outputDir) as [t1 o]. cbn [snd] in Hdir. subst o.
  destruct (Promise_all _) as [t2 r]. exact E.
Qed.

Lemma Index_runConvertCLI_cases answers :
  Index.promptUser = ([], Resolved answers) ->
  Index.runConvertCLI =
  let (tc, o) :=
    Index.convertImages (inputPath answers) (outputPath answers)
      (cli_options answers) in
  match o with
  | Resolved output =>
      ((fst Index.intro ++ fst (Index.summarizeAnswers answers) ++ tc
        ++ fst (Index.summarizeConversions output))%list, Resolved tt)
  | Rejected e =>
      ((fst Index.intro ++ fst (Index.summarizeAnswers answers) ++ tc)%list,
       Rejected e)
  | Exited c =>
      ((fst Index.intro ++ fst (Index.summarizeAnswers answers) ++ tc)%list,
       Exited c)
  end.
Proof.
  intros Hp. unfold Index.runConvertCLI.
  rewrite intro_resolved. cbn [bind]. rewrite Hp. cbn [bind].
  destruct (Index_summarizeAnswers_resolved answers) as (-> & _).
  cbn [bind fst].
  change (mkFormatOpts _ _ _ _) with (cli_options answers).
  destruct (Index.convertImages _ _ _) as [tc [output|e|c]]; cbn [bind app];
    reflexivity.
Qed.

Lemma DistIndex_runConvertCLI_cases answers :
  DistIndex.promptUser = ([], Resolved answers) ->
  DistIndex.runConvertCLI =
  let (tc, o) :=
    DistIndex.convertImages (inputPath answers) (outputPath answers)
      (cli_options answers) in
  match o with
  | Resolved output =>
      ((fst (DistIndex.summarizeAnswers answers) ++ tc
        ++ fst (DistIndex.summarizeConversions output))%list, Resolved tt)
  | Rejected e =>
      ((fst (DistIndex.summarizeAnswers answers) ++ tc)%list, Rejected e)
  | Exited c =>
      ((fst (DistIndex.summarizeAnswers answers) ++ tc)%list, Exited c)
  end.
Proof.
  intros Hp. unfold DistIndex.runConvertCLI.
  rewrite Hp. cbn [bind].
  destruct (DistIndex_summarizeAnswers_resolved answers) as (-> & _).
  cbn [bind fst].
  change (mkFormatOpts _ _ _ _) with (cli_options answers).
  destruct (DistIndex.convertImages _ _ _) as [tc [output|e|c]]; cbn [bind app];
    reflexivity.
Qed.

End Run.

Section RunOutcome.
Context {W : World}.

Lemma Index_convertImages_scans inputDir outputDir options :
  scans (fst (Index.convertImages inputDir outputDir options)) = [inputDir].
Proof.
  pose proof (getImagesFromDir_cases inputDir) as H.
  destruct (readdir inputDir) as [contents|e].
  - rewrite (Index_convertImages_cases _ _ _ _ _ H).
    destruct (filter (not_in_target_format (format options)) _)
      as [|img kept]; [reflexivity|].
    destruct (createDir_trace outputDir) as (_ & Hs & _).
    destruct (dispatch_trace outputDir options (img :: kept)) as [Hp _].
    destruct (Utils.createDir outputDir) as [t1 [[]|e|c]]; cbn [fst] in *;
      cbn [scans]; try (now rewrite Hs).
    destruct (Promise_all _) as [t2 r]. cbn [fst] in *. subst t2.
    cbn [scans]. rewrite scans_app, Hs.
    now destruct (scans_of_tasks outputDir (format options) (img :: kept)) as [-> _].
  - unfold Index.convertImages. rewrite H. reflexivity.
Qed.

Lemma DistIndex_convertImages_scans inputDir outputDir options :
  scans (fst (DistIndex.convertImages inputDir outputDir options)) = [outputDir].
Proof.
  pose proof (getImagesFromDir_cases outputDir) as H.
  destruct (readdir outputDir) as [contents|e].
  - rewrite (DistIndex_convertImages_cases _ _ _ _ _ H).
    destruct (filter (not_in_target_format (format options)) _)
      as [|img kept]; [reflexivity|].
    destruct (dispatch_trace outputDir options (img :: kept)) as [Hp _].
    destruct (Promise_all _) as [t2 r]. cbn [fst] in *. subst t2.
    cbn [scans].
    now destruct (scans_of_tasks outputDir (format options) (img :: kept)) as [-> _].
  - unfold DistIndex.convertImages. rewrite H. reflexivity.
Qed.

End RunOutcome.

(** X14. The closing summary counts every attempted conversion as converted:
    when the prompts are answered, the scan and the directory bootstrap
    succeed and the conversions of the non-empty filtered list are fulfilled
    with any results, failures included, [runConvertCLI] resolves and its
    last two printed lines are [N of N images converted.] and the closing
    line, with N the length of the filtered list. *)
Theorem runConvertCLI_summary_counts_failures
  {W : World} (answers : Answers) (t0 : list Event)
  (scanned : list FileInfo) (results : list (option Error)) :
  Index.promptUser = ([], Resolved answers) ->
  Utils.getImagesFromDir (inputPath answers) = (t0, Resolved scanned) ->
  filter (not_in_target_format (a_format answers)) scanned <> [] ->
  snd (Utils.createDir (outputPath answers)) = Resolved tt ->
  Forall2 (fun image r =>
             fulfilled (task (outputPath answers) (cli_options answers) image) r)
          (filter (not_in_target_format (a_format answers)) scanned) results ->
  snd Index.runConvertCLI = Resolved tt
  /\ exists before,
       printed (fst Index.runConvertCLI)
       = (before
          ++ [chalk "blue.bold"
                (JS.length_text
                   (length (filter (not_in_target_format (a_format answers))
                              scanned))
                 ++ " of "
                 ++ JS.length_text
                      (length (filter (not_in_target_format (a_format answers))
                                 scanned))
                 ++ " images converted.");
              chalk "greenBright.bold" "✅ All done!"])%list.
Proof.
  intros Hp Hs Hne Hd F.
  pose proof (Index_convertImages_returns (inputPath answers) (outputPath answers)
                (cli_options answers) t0 scanned results Hs Hne Hd F) as Hr.
  rewrite (Index_runConvertCLI_cases answers Hp).
  destruct (Index.convertImages _ _ _) as [tc o]. cbn [snd] in Hr. subst o.
  split; [reflexivity|].
  cbn [fst]. rewrite Index_summarizeConversions_cases. cbn [fst].
  rewrite (Forall2_length F).
  exists (printed (fst Index.intro ++ fst (Index.summarizeAnswers answers) ++ tc)%list).
  rewrite !app_assoc, printed_app. reflexivity.
Qed.

Lemma runConvertCLI_summary_counts_failures_witness :
  snd (@Index.runConvertCLI Runtime.example) = Resolved tt
  /\ exists before,
       printed (fst (@Index.runConvertCLI Runtime.example))
       = (before
          ++ [@chalk Runtime.example "blue.bold"
                (JS.length_text
                   (length (filter (not_in_target_format png) Runtime.photos))
                 ++ " of "
                 ++ JS.length_text
                      (length (filter (not_in_target_format png) Runtime.photos))
                 ++ " images converted.");
              @chalk Runtime.example "greenBright.bold" "✅ All done!"])%list.
Proof.
  apply (@runConvertCLI_summary_counts_failures Runtime.example
           (answers_of Runtime.base_answers "100%" "None")
           [Readdir "photos"] Runtime.photos
           [Some "Input file contains unsupported image format"; None]);
    [reflexivity | reflexivity | discriminate | reflexivity | repeat constructor].
Defined.

(** X15. A failed directory listing does not crash the program.  When the
    prompts are answered and the listing of the directory the build scans
    fails, the run does nothing after the listing, and the handler of the
    last statement prints [Error:] followed by the error's text; the
    program then ends without rejecting and without an exit call.  index.ts
    lists the input path, the compiled build the effective output
    directory. *)
Theorem main_reports_listing_failure
  {W : World} (toString : Error -> string) (base : BaseAnswers) (e : Error) :
  prompt_base = Normal base ->
  (b_resize base = true -> exists extra, prompt_extra = Normal extra) ->
  (readdir (b_inputPath base) = Throw e ->
   exists q d,
     Index.main toString
     = ((fst Index.intro
         ++ fst (Index.summarizeAnswers (answers_of base q d))
         ++ [Readdir (b_inputPath base); Log ("Error:" ++ toString e)])%list,
        Resolved tt))
  /\ (readdir (match b_outputPath base with
               | EmptyString => b_inputPath base
               | _ => b_outputPath base
               end) = Throw e ->
      exists q d,
        DistIndex.main toString
        = ((fst (DistIndex.summarizeAnswers (answers_of base q d))
            ++ [Readdir (match b_outputPath base with
                         | EmptyString => b_inputPath base
                         | _ => b_outputPath base
                         end);
                Log ("Error:" ++ toString e)])%list,
           Resolved tt)).
Proof.
  intros Hb He.
  assert (Ha : exists q d,
             Index.promptUser = ([], Resolved (answers_of base q d))
             /\ DistIndex.promptUser = ([], Resolved (answers_of base q d))).
  { rewrite Index_promptUser_cases, DistIndex_promptUser_cases, Hb.
    destruct (b_resize base).
    - destruct (He eq_refl) as [extra ->]. eauto.
    - eauto. }
  destruct Ha as (q & d & Hi & Hd).
  split; intros Hr; exists q, d.
  - unfold Index.main. rewrite (Index_runConvertCLI_cases _ Hi).
    unfold Index.convertImages. rewrite getImagesFromDir_cases.
    cbn [inputPath answers_of]. rewrite Hr.
    cbn [bind try_catch log tell]. now rewrite <- !app_assoc.
  - unfold DistIndex.main. rewrite (DistIndex_runConvertCLI_cases _ Hd).
    unfold DistIndex.convertImages. rewrite getImagesFromDir_cases.
    cbn [outputPath answers_of]. rewrite Hr.
    cbn [bind try_catch log tell]. now rewrite <- !app_assoc.
Qed.

Lemma main_reports_listing_failure_witness :
  exists q d,
    @Index.main
      (Runtime.world Runtime.listing []
         (Normal (mkBaseAnswers "missing" "" png false))
         (Normal Runtime.extra_answers))
      (fun e => "Error: " ++ e)
    = ((fst (@Index.intro
               (Runtime.world Runtime.listing []
                  (Normal (mkBaseAnswers "missing" "" png false))
                  (Normal Runtime.extra_answers)))
        ++ fst (@Index.summarizeAnswers
                  (Runtime.world Runtime.listing []
                     (Normal (mkBaseAnswers "missing" "" png false))
                     (Normal Runtime.extra_answers))
                  (answers_of (mkBaseAnswers "missing" "" png false) q d))
        ++ [Readdir "missing";
            Log ("Error:" ++ "Error: " ++ "ENOENT: no such file or directory")])%list,
       Resolved tt).
Proof.
  destruct (@main_reports_listing_failure
              (Runtime.world Runtime.listing []
                 (Normal (mkBaseAnswers "missing" "" png false))
                 (Normal Runtime.extra_answers))
              (fun e => "Error: " ++ e)
              (mkBaseAnswers "missing" "" png false)
              "ENOENT: no such file or directory"
              eq_refl) as (H & _).
  - discriminate.
  - apply H. reflexivity.
Defined.

(** X16. The directory a whole run lists, when the prompts are answered:
    index.ts lists the input path; the compiled build lists the effective
    output directory, which is the input path when the output path was left
    empty and the output path otherwise.  So the two builds list the same
    directory exactly when the output path is empty or equals the input
    path. *)
Theorem runConvertCLI_scanned_directory {W : World} (base : BaseAnswers) :
  prompt_base = Normal base ->
  (b_resize base = true -> exists extra, prompt_extra = Normal extra) ->
  scans (fst Index.runConvertCLI) = [b_inputPath base]
  /\ scans (fst DistIndex.runConvertCLI)
     = [match b_outputPath base with
        | EmptyString => b_inputPath base
        | _ => b_outputPath base
        end].
Proof.
  intros Hb He.
  assert (Ha : exists q d,
             Index.promptUser = ([], Resolved (answers_of base q d))
             /\ DistIndex.promptUser = ([], Resolved (answers_of base q d))).
  { rewrite Index_promptUser_cases, DistIndex_promptUser_cases, Hb.
    destruct (b_resize base).
    - destruct (He eq_refl) as [extra ->]. eauto.
    - eauto. }
  destruct Ha as (q & d & Hi & Hd).
  rewrite (Index_runConvertCLI_cases _ Hi), (DistIndex_runConvertCLI_cases _ Hd).
  split.
  - pose proof (Index_convertImages_scans
                  (inputPath (answers_of base q d))
                  (outputPath (answers_of base q d))
                  (cli_options (answers_of base q d))) as Hs.
    destruct (Index_summarizeAnswers_resolved (answers_of base q d)) as (_ & Hsa & _).
    destruct (Index.convertImages _ _ _) as [tc [output|e|c]]; cbn [fst] in *;
      rewrite !scans_app, Hsa, Hs; try reflexivity.
  - pose proof (DistIndex_convertImages_scans
                  (inputPath (answers_of base q d))
                  (outputPath (answers_of base q d))
                  (cli_options (answers_of base q d))) as Hs.
    destruct (DistIndex_summarizeAnswers_resolved (answers_of base q d))
      as (_ & Hsa & _).
    destruct (DistIndex.convertImages _ _ _) as [tc [output|e|c]]; cbn [fst] in *;
      rewrite !scans_app, Hsa, Hs; try reflexivity.
Qed.

Lemma runConvertCLI_scanned_directory_witness :
  scans (fst (@Index.runConvertCLI Runtime.example)) = ["photos"]
  /\ scans (fst (@DistIndex.runConvertCLI Runtime.example)) = [" "].
Proof.
  apply (@runConvertCLI_scanned_directory Runtime.example Runtime.base_answers);
    [reflexivity | discriminate].
Defined.

Lemma task_events_are_conversions {W : World} outputDir fmt images ev :
  In ev (map (fun image => let (i, o) := files_of outputDir fmt image in
                           Convert i o) images) ->
  exists i o, ev = Convert i o.
Proof.
  intros H. apply in_map_iff in H as (img & <- & _).
  destruct (files_of outputDir fmt img) as [i o]. eauto.
Qed.

(** X17. [convertImages] itself prints nothing, whatever happens, in both
    builds; and the compiled build never checks or creates the output
    directory: its only calls to the outside are the directory listing, the
    conversions and the exit. *)
Theorem convertImages_prints_nothing
  {W : World} (inputDir outputDir : string) (options : FormatOpts) :
  printed (fst (Index.convertImages inputDir outputDir options)) = []
  /\ printed (fst (DistIndex.convertImages inputDir outputDir options)) = []
  /\ (forall d,
        ~ In (Access d) (fst (DistIndex.convertImages inputDir outputDir options))
        /\ ~ In (Mkdir d) (fst (DistIndex.convertImages inputDir outputDir options))).
Proof.
  split; [|split].
  - pose proof (getImagesFromDir_cases inputDir) as H.
    destruct (readdir inputDir) as [contents|e].
    + rewrite (Index_convertImages_cases _ _ _ _ _ H).
      destruct (filter (not_in_target_format (format options)) _)
        as [|img kept]; [reflexivity|].
      destruct (createDir_trace outputDir) as (_ & _ & Hs).
      destruct (dispatch_trace outputDir options (img :: kept)) as [Hp _].
      destruct (Utils.createDir outputDir) as [t1 [[]|e|c]]; cbn [fst] in *;
        cbn [printed]; try (now rewrite Hs).
      destruct (Promise_all _) as [t2 r]. cbn [fst] in *. subst t2.
      cbn [printed]. rewrite printed_app, Hs.
      now destruct (scans_of_tasks outputDir (format options) (img :: kept))
        as [_ ->].
    + unfold Index.convertImages. rewrite H. reflexivity.
  - pose proof (getImagesFromDir_cases outputDir) as H.
    destruct (readdir outputDir) as [contents|e].
    + rewrite (DistIndex_convertImages_cases _ _ _ _ _ H).
      destruct (filter (not_in_target_format (format options)) _)
        as [|img kept]; [reflexivity|].
      destruct (dispatch_trace outputDir options (img :: kept)) as [Hp _].
      destruct (Promise_all _) as [t2 r]. cbn [fst] in *. subst t2.
      cbn [printed].
      now destruct (scans_of_tasks outputDir (format options) (img :: kept))
        as [_ ->].
    + unfold DistIndex.convertImages. rewrite H. reflexivity.
  - intros d.
    pose proof (getImagesFromDir_cases outputDir) as H.
    destruct (readdir outputDir) as [contents|e].
    + rewrite (DistIndex_convertImages_cases _ _ _ _ _ H).
      destruct (filter (not_in_target_format (format options)) _)
        as [|img kept].
      * cbn [fst]. split; intros [E|[E|[]]]; discriminate.
      * destruct (dispatch_trace outputDir options (img :: kept)) as [Hp _].
        destruct (Promise_all _) as [t2 r]. cbn [fst] in *. subst t2.
        split; (intros [E|E]; [discriminate|];
                apply task_events_are_conversions in E as (i & o & E);
                discriminate).
    + unfold DistIndex.convertImages. rewrite H. cbn [bind fst].
      split; intros [E|[]]; discriminate.
Qed.

Lemma replace_first c s t :
  has_char c s = false -> JS.replace c "" (s ++ String c t) = s ++ t.
Proof.
  induction s as [|a s IH]; simpl; intros H.
  - now rewrite Ascii.eqb_refl.
  - apply orb_false_iff in H as [Ha Hs]. rewrite Ha, (IH Hs). reflexivity.
Qed.

Lemma replace_absent c s : has_char c s = false -> JS.replace c "" s = s.
Proof.
  induction s as [|a s IH]; simpl; intros H; [reflexivity|].
  apply orb_false_iff in H as [Ha Hs]. rewrite Ha, (IH Hs). reflexivity.
Qed.

(** X18. The quality [runConvertCLI] passes on: the first percent sign of
    the answer is removed and the rest goes through [Number], so an answer
    [q%] with [q] not empty gives [Number q]; an answer that is empty or
    only a percent sign gives 100.  Format, resize choice and dimensions are
    passed on unchanged. *)
Theorem cli_options_quality {W : World} (answers : Answers) :
  (forall q rest,
      a_quality answers = q ++ String "%" rest ->
      has_char "%" q = false ->
      q ++ rest <> "" ->
      quality (cli_options answers) = Number (q ++ rest))
  /\ (a_quality answers = "" \/ a_quality answers = "%" ->
      quality (cli_options answers) = Num 100)
  /\ (has_char "%" (a_quality answers) = false ->
      a_quality answers <> "" ->
      quality (cli_options answers) = Number (a_quality answers))
  /\ format (cli_options answers) = a_format answers
  /\ resize (cli_options answers) = a_resize answers
  /\ dimensions (cli_options answers) = a_dimensions answers.
Proof.
  unfold cli_options. cbn [quality format resize dimensions].
  repeat split.
  - intros q rest E Hq Hne. rewrite E, replace_first by assumption.
    rewrite Number_or_side. destruct (q ++ rest); [contradiction | reflexivity].
  - intros [->| ->]; reflexivity.
  - intros Hq Hne. rewrite replace_absent by assumption.
    rewrite Number_or_side. destruct (a_quality answers); [contradiction | reflexivity].
Qed.

Lemma cli_options_quality_witness :
  quality (@cli_options Runtime.example (answers_of Runtime.base_answers "90%" "800x350"))
  = @Number Runtime.example ("90" ++ "").
Proof.
  destruct (@cli_options_quality Runtime.example
              (answers_of Runtime.base_answers "90%" "800x350")) as (H & _).
  apply (H "90" ""); [reflexivity | reflexivity | discriminate].
Defined.

(** X19. Output names collide: two images whose names have the same text
    before their first dot are given the same output file, whatever their
    extensions and paths are, so their conversions write to one file. *)
Theorem same_stem_same_output_file
  {W : World} (outputDir : string) (fmt : Format) (image1 image2 : FileInfo)
  (stem ending1 ending2 : string) :
  has_char "." stem = false ->
  name image1 = stem ++ String "." ending1 ->
  name image2 = stem ++ String "." ending2 ->
  snd (files_of outputDir fmt image1) = snd (files_of outputDir fmt image2)
  /\ snd (files_of outputDir fmt image1)
     = join outputDir (stem ++ String "." (format_str fmt)).
Proof.
  intros Hs H1 H2. unfold files_of. cbn [snd].
  rewrite H1, H2, !getFileName_of_output by assumption. split; reflexivity.
Qed.

Lemma same_stem_same_output_file_witness :
  snd (@files_of Runtime.example "out" png
         (mkFileInfo "photos/cat.jpg" "cat.jpg" ".jpg"))
  = snd (@files_of Runtime.example "out" png
           (mkFileInfo "photos/cat.jpeg" "cat.jpeg" ".jpeg"))
  /\ snd (@files_of Runtime.example "out" png
            (mkFileInfo "photos/cat.jpg" "cat.jpg" ".jpg"))
     = @join Runtime.example "out" ("cat" ++ String "." (format_str png)).
Proof.
  apply (@same_stem_same_output_file Runtime.example "out" png
           (mkFileInfo "photos/cat.jpg" "cat.jpg" ".jpg")
           (mkFileInfo "photos/cat.jpeg" "cat.jpeg" ".jpeg")
           "cat" "jpg" "jpeg"); reflexivity.
Defined.
